(** * Dashboard server of the orchestrator: status inference, session
    resolution and the task queue, embedded from src/dashboard/server.py.

    Python strings are sequences of code points: they are modelled as
    [list N].  Library operations whose behaviour depends on the Unicode
    tables ([str.lower], [str.upper], [int], the [re.IGNORECASE] letter
    class) are section variables, so every theorem holds for the real
    tables; concrete runs instantiate them with the ASCII mappings, which
    agree with Python on the inputs used. *)

From Stdlib Require Import List String Ascii NArith ZArith Bool Lia.
From Stdlib Require Import Sorting.Sorted Sorting.Permutation.
Import ListNotations.

Open Scope list_scope.

(** ** Code points and strings *)

Definition uchar := N.
Definition ustr := list uchar.
Bind Scope N_scope with uchar.

(** An ASCII string literal as a list of code points. *)
Definition u (s : string) : ustr := map N_of_ascii (list_ascii_of_string s).

Definition ustr_eqb (a b : ustr) : bool :=
  if list_eq_dec N.eq_dec a b then true else false.

Definition is_empty (s : ustr) : bool :=
  match s with [] => true | _ => false end.

(** [str.isspace] for one code point (the set Python's [str.strip()] and the
    regex class [\s] use). *)
Definition is_space (c : uchar) : bool :=
  ((9 <=? c) && (c <=? 13))%N || ((28 <=? c) && (c <=? 32))%N
  || (c =? 133)%N || (c =? 160)%N || (c =? 5760)%N
  || ((8192 <=? c) && (c <=? 8202))%N
  || (c =? 8232)%N || (c =? 8233)%N || (c =? 8239)%N || (c =? 8287)%N
  || (c =? 12288)%N.

Fixpoint drop_while (p : uchar -> bool) (s : ustr) : ustr :=
  match s with
  | [] => []
  | c :: s' => if p c then drop_while p s' else s
  end.

Fixpoint take_while (p : uchar -> bool) (s : ustr) : ustr :=
  match s with
  | [] => []
  | c :: s' => if p c then c :: take_while p s' else []
  end.

(** [s.strip()] *)
Definition py_strip (s : ustr) : ustr :=
  rev (drop_while is_space (rev (drop_while is_space s))).

(** [s.startswith(p)] *)
Fixpoint startswith (p s : ustr) : bool :=
  match p, s with
  | [], _ => true
  | c :: p', d :: s' => (c =? d)%N && startswith p' s'
  | _ :: _, [] => false
  end.

(** [p in s] *)
Fixpoint contains (p s : ustr) : bool :=
  startswith p s || match s with [] => false | _ :: s' => contains p s' end.

(** [any(p in s for p in pats)] *)
Definition contains_any (pats : list ustr) (s : ustr) : bool :=
  existsb (fun p => contains p s) pats.

(** ["\n".join(ls)] *)
Fixpoint join_nl (ls : list ustr) : ustr :=
  match ls with
  | [] => []
  | [l] => l
  | l :: ls' => l ++ [10%N] ++ join_nl ls'
  end.

(** [xs[-n:]] *)
Definition lastn {A} (n : nat) (xs : list A) : list A :=
  skipn (List.length xs - n) xs.

(** [ANSI_ESCAPE_RE.sub("", text)] with
    [ANSI_ESCAPE_RE = \x1B\[[0-?]*[ -/]*[@-~]].  The three classes are
    disjoint, so the greedy match never backtracks; after a failed match the
    scan resumes just after the ESC, and the characters it had consumed
    (['['], parameters, intermediates) contain no ESC, so they are copied. *)
Inductive ansi_mode := Plain | AfterEsc | Params (pend : ustr) | Inter (pend : ustr).

Definition in_range (lo hi c : uchar) : bool := ((lo <=? c) && (c <=? hi))%N.

Fixpoint strip_ansi_go (m : ansi_mode) (s : ustr) : ustr :=
  match s with
  | [] =>
      match m with
      | Plain => []
      | AfterEsc => [27%N]
      | Params p | Inter p => p
      end
  | c :: s' =>
      let plain := if (c =? 27)%N then strip_ansi_go AfterEsc s'
                   else c :: strip_ansi_go Plain s' in
      match m with
      | Plain => plain
      | AfterEsc =>
          if (c =? 91)%N then strip_ansi_go (Params [27; 91]%N) s'
          else 27%N :: plain
      | Params p =>
          if in_range 48 63 c then strip_ansi_go (Params (p ++ [c])) s'
          else if in_range 32 47 c then strip_ansi_go (Inter (p ++ [c])) s'
          else if in_range 64 126 c then strip_ansi_go Plain s'
          else p ++ plain
      | Inter p =>
          if in_range 32 47 c then strip_ansi_go (Inter (p ++ [c])) s'
          else if in_range 64 126 c then strip_ansi_go Plain s'
          else p ++ plain
      end
  end.

Definition _strip_ansi (s : ustr) : ustr := strip_ansi_go Plain s.

(** ** Status inference (_infer_status_from_output) *)

Inductive status := Running | Error | Done | NeedsInput | Working | Idle.

Definition ERROR_PATTERNS : list ustr :=
  map u ["traceback"; "exception"; "fatal:"; "error:"; "failed"]%string.
Definition DONE_PATTERNS : list ustr :=
  map u ["task complete"; "task completed"; "completed end-to-end"; "done."]%string.
Definition WORKING_PATTERNS : list ustr :=
  map u ["esc to interrupt"; "working ("; "planning "; "running job bot";
         "tracking run progress"; "waiting for background terminal"]%string.
Definition DEMOTABLE_WORKING_PATTERNS : list ustr :=
  map u ["esc to interrupt"; "working ("; "planning ";
         "tracking run progress"]%string.
Definition BACKGROUND_PROGRESS_PATTERNS : list ustr :=
  map u ["waiting for background terminal"; "tracking run progress";
         "running job bot"]%string.
Definition INFORMATIONAL_PROMPT_PREFIXES : list ustr := [u "use /"].
Definition PROMPT_STALE_SECONDS : Z := 15.
Definition BACKGROUND_PROGRESS_STALE_SECONDS : Z := 300.

(** The prompt prefix exactly as it is written in the source file: the four
    code points U+00E2 U+20AC U+00BA U+0020. *)
Definition PROMPT_PREFIX : ustr := [226; 8364; 186; 32]%N.

Section Inference.

(** [str.lower], one code point at a time (Unicode tables). *)
Variable lower_cp : uchar -> ustr.

Definition py_lower (s : ustr) : ustr := flat_map lower_cp s.

Definition _is_informational_prompt (prompt_text : ustr) : bool :=
  let lowered := py_lower (py_strip prompt_text) in
  if is_empty lowered then false
  else if ustr_eqb lowered (u "use /skills to list available skills") then true
  else if ustr_eqb lowered (u "implement {feature}") then true
  else existsb (fun p => startswith p lowered) INFORMATIONAL_PROMPT_PREFIXES.

(** [cleaned = [_strip_ansi(line).strip() for line in lines if line and line.strip()]] *)
Definition cleaned (lines : list ustr) : list ustr :=
  map (fun l => py_strip (_strip_ansi l))
      (filter (fun l => negb (is_empty l) && negb (is_empty (py_strip l))) lines).

(** [recent_lines = cleaned[-20:]] *)
Definition recent_lines (lines : list ustr) : list ustr := lastn 20 (cleaned lines).

(** Variables of the [enumerate] loop. *)
Record scan := {
  latest_working : option (nat * ustr);
  latest_noninfo_prompt_idx : option nat;
  latest_noninfo_prompt_text : ustr;
  latest_info_prompt_idx : option nat;
  latest_background_count : option (nat * ustr)
}.

Definition scan0 : scan := Build_scan None None [] None None.

Definition scan_step (st : scan) (idx : nat) (line : ustr) : scan :=
  let lowered := py_lower line in
  let w := if contains_any WORKING_PATTERNS lowered then Some (idx, line)
           else latest_working st in
  let b := if contains (u "background terminal running") lowered
              || contains (u "background terminals running") lowered
           then Some (idx, line) else latest_background_count st in
  if startswith PROMPT_PREFIX line then
    let prompt_text := py_strip (skipn 2 line) in
    if _is_informational_prompt prompt_text
    then Build_scan w (latest_noninfo_prompt_idx st)
           (latest_noninfo_prompt_text st) (Some idx) b
    else Build_scan w (Some idx) prompt_text (latest_info_prompt_idx st) b
  else Build_scan w (latest_noninfo_prompt_idx st)
         (latest_noninfo_prompt_text st) (latest_info_prompt_idx st) b.

Fixpoint scan_from (st : scan) (idx : nat) (ls : list ustr) : scan :=
  match ls with
  | [] => st
  | l :: ls' => scan_from (scan_step st idx l) (S idx) ls'
  end.

Definition is_error_line (l : ustr) : bool := contains_any ERROR_PATTERNS (py_lower l).
Definition is_done_line (l : ustr) : bool := contains_any DONE_PATTERNS (py_lower l).

Definition opt_gt (a : option nat) (b : nat) : bool :=
  match a with Some i => (b <? i)%nat | None => false end.

Definition age_gt (last_activity_ts : option Z) (now_ts limit : Z) : bool :=
  match last_activity_ts with Some t => (limit <? now_ts - t)%Z | None => false end.

(** The tail of the function after the working branch: informational
    prompt, idle, fallback. *)
Definition infer_tail (st : scan) (recent_text : ustr) (last_activity_ts : option Z)
    (now_ts : Z) : status * ustr :=
  if match latest_info_prompt_idx st with
     | Some _ => match last_activity_ts with
                 | None => true
                 | Some t => (PROMPT_STALE_SECONDS <? now_ts - t)%Z
                 end
     | None => false
     end
  then (NeedsInput, u "Awaiting input")
  else if age_gt last_activity_ts now_ts 300 then (Idle, u "Idle")
  else if contains (u "waiting") recent_text then (Idle, u "Waiting")
  else (Running, u "Running").

(** The [if latest_working_line:] branch. *)
Definition infer_working (st : scan) (recent : list ustr) (recent_text : ustr)
    (last_activity_ts : option Z) (now_ts : Z) : status * ustr :=
  match latest_working st with
  | Some (wi, wl) =>
      if is_empty wl then infer_tail st recent_text last_activity_ts now_ts else
      let has_background_progress :=
        existsb (fun ln => contains_any BACKGROUND_PROGRESS_PATTERNS (py_lower ln)) recent in
      let working_demotable := contains_any DEMOTABLE_WORKING_PATTERNS (py_lower wl) in
      if opt_gt (latest_info_prompt_idx st) wi && working_demotable
         && age_gt last_activity_ts now_ts PROMPT_STALE_SECONDS
         && negb has_background_progress
      then (NeedsInput, u "Awaiting input")
      else if has_background_progress
         && age_gt last_activity_ts now_ts BACKGROUND_PROGRESS_STALE_SECONDS
         && opt_gt (latest_info_prompt_idx st) wi
      then (NeedsInput, u "Awaiting input")
      else match latest_background_count st with
           | Some (bi, bl) => if (wi <=? bi)%nat then (Working, firstn 160 bl)
                              else (Working, firstn 160 wl)
           | None => (Working, firstn 160 wl)
           end
  | None => infer_tail st recent_text last_activity_ts now_ts
  end.

(** The [needs_input] check on the latest non-informational prompt. *)
Definition infer_prompt (st : scan) (recent : list ustr) (recent_text : ustr)
    (last_activity_ts : option Z) (now_ts : Z) : status * ustr :=
  match latest_noninfo_prompt_idx st with
  | Some p =>
      if match latest_working st with None => true | Some (w, _) => (w <? p)%nat end
      then (NeedsInput,
            let t := latest_noninfo_prompt_text st in
            if is_empty t then u "Awaiting input"
            else u "Awaiting input: " ++ firstn 140 t)
      else infer_working st recent recent_text last_activity_ts now_ts
  | None => infer_working st recent recent_text last_activity_ts now_ts
  end.

(** [_infer_status_from_output(lines, last_activity_ts)]; [now_ts] is
    [int(datetime.now().timestamp())], read by the function itself. *)
Definition _infer_status_from_output (lines : list ustr) (last_activity_ts : option Z)
    (now_ts : Z) : status * ustr :=
  match cleaned lines with
  | [] => (Running, u "Running")
  | cl =>
      let recent := lastn 20 cl in
      let recent_text := py_lower (join_nl recent) in
      let newest_first := rev recent in
      let st := scan_from scan0 0 recent in
      match find is_error_line newest_first with
      | Some line => (Error, firstn 160 line)
      | None =>
          match find is_done_line newest_first, latest_noninfo_prompt_idx st with
          | Some dl, Some _ =>
              if is_empty dl then infer_prompt st recent recent_text last_activity_ts now_ts
              else (Done, firstn 160 dl)
          | _, _ => infer_prompt st recent recent_text last_activity_ts now_ts
          end
      end
  end.

End Inference.

(** ** Status reconciliation (api_sessions, one session) *)

Section Reconcile.

Variable lower_cp : uchar -> ustr.
(** [int(s)] on a string; [None] where it raises [ValueError]. *)
Variable py_int : ustr -> option Z.

Definition state_mapping (text : ustr) : ustr :=
  if ustr_eqb text (u "in_progress") then u "working"
  else if ustr_eqb text (u "in-progress") then u "working"
  else if ustr_eqb text (u "running") then u "working"
  else if ustr_eqb text (u "blocked") then u "needs_input"
  else if ustr_eqb text (u "complete") then u "done"
  else if ustr_eqb text (u "completed") then u "done"
  else if ustr_eqb text (u "failed") then u "error"
  else text.

(** [text in {"idle", "working", "needs_input", "done", "error"}] *)
Definition state_of_name (text : ustr) : option status :=
  if ustr_eqb text (u "idle") then Some Idle
  else if ustr_eqb text (u "working") then Some Working
  else if ustr_eqb text (u "needs_input") then Some NeedsInput
  else if ustr_eqb text (u "done") then Some Done
  else if ustr_eqb text (u "error") then Some Error
  else None.

(** [_normalize_state(raw_state)]; the record's [state] is a string or
    absent. *)
Definition _normalize_state (raw_state : option ustr) : option status :=
  match raw_state with
  | None => None
  | Some s =>
      if is_empty s then None else
      let text := py_lower lower_cp (py_strip s) in
      if is_empty text then None else state_of_name (state_mapping text)
  end.

(** A Status Record as returned by the status store ([message] is
    [Optional[str]] in the store's payload model). *)
Record status_record := {
  rec_state : option ustr;
  rec_message : option ustr
}.

Definition no_record : status_record := Build_status_record None None.

(** [captured_lines]: the last 80 non-blank lines of [capture-pane], or
    nothing when the capture fails. *)
Definition captured_lines (pane : option (list ustr)) : list ustr :=
  match pane with
  | Some out => lastn 80 (filter (fun ln => negb (is_empty (py_strip ln))) out)
  | None => []
  end.

(** The body of the loop of [api_sessions] for one session: [payload] is
    [status_map.get(session_id, {})], [activity] is the session's activity
    field, [pane] the captured pane lines ([None] when [capture-pane]
    fails), [now_ts] the clock read by the inference. *)
Definition reconcile_session (payload : status_record) (activity : ustr)
    (pane : option (list ustr)) (now_ts : Z) : status * ustr :=
  let captured_lines := captured_lines pane in
  let message := py_strip (match rec_message payload with Some m => m | None => [] end) in
  match _normalize_state (rec_state payload) with
  | Some state => (state, if is_empty message then u "Running" else message)
  | None =>
      let activity_ts := py_int activity in
      let (inferred_state, inferred_message) :=
        _infer_status_from_output lower_cp captured_lines activity_ts now_ts in
      let message := if is_empty message then inferred_message else message in
      (inferred_state, if is_empty message then u "Running" else message)
  end.

End Reconcile.

(** ** Session resolution (_safe_tmux_session_name, _resolve_tmux_session) *)

(** [[a-zA-Z0-9_-]] *)
Definition is_name_char (c : uchar) : bool :=
  in_range 97 122 c || in_range 65 90 c || in_range 48 57 c || (c =? 95)%N || (c =? 45)%N.

Definition _safe_tmux_session_name (session_id : ustr) : ustr :=
  let sanitized := map (fun c => if is_name_char c then c else 45%N) session_id in
  if (64 <? List.length sanitized)%nat then firstn 64 sanitized else sanitized.

Section Resolve.

(** [_tmux_has_session]: what the multiplexer answers to [has-session -t]. *)
Variable has_session : ustr -> bool.

Definition resolve_candidates (session_id : ustr) : list ustr :=
  let sanitized := _safe_tmux_session_name session_id in
  [sanitized; u "orch-" ++ session_id; u "orch-" ++ sanitized; session_id].

(** The [for tmux_session in candidates] loop with its [seen] set. *)
Fixpoint probe (seen : list ustr) (candidates : list ustr) : option ustr :=
  match candidates with
  | [] => None
  | c :: cs =>
      if is_empty c || existsb (ustr_eqb c) seen then probe seen cs
      else if has_session c then Some c
      else probe (c :: seen) cs
  end.

Definition _resolve_tmux_session (session_id : ustr) : option ustr :=
  probe [] (resolve_candidates session_id).

(** The resolution as the spec words it: the first of the four candidates
    that the multiplexer reports. *)
Definition resolve_as_specified (session_id : ustr) : option ustr :=
  find has_session (resolve_candidates session_id).

End Resolve.

(** tmux's answer to [has-session -t target] over a set of live session
    names: an empty target designates the current (most recent) session,
    so it succeeds whenever a session exists; otherwise exact names
    (tmux's prefix matching is not modelled). *)
Definition tmux_has_session (live : list ustr) (target : ustr) : bool :=
  if is_empty target then match live with [] => false | _ => true end
  else existsb (ustr_eqb target) live.

(** ** Task queue: directories under QUEUE_ROOT *)

Inductive qstate := Pending | InProgress | Blocked | Completed | Learning.

Definition qstate_eqb (a b : qstate) : bool :=
  match a, b with
  | Pending, Pending | InProgress, InProgress | Blocked, Blocked
  | Completed, Completed | Learning, Learning => true
  | _, _ => false
  end.

(** [["pending", "in-progress", "blocked", "completed", "learning"]] *)
Definition STATES : list qstate := [Pending; InProgress; Blocked; Completed; Learning].

(** The queue directories ([QUEUE_ROOT/<state>/<task_id>.md], [None] when
    the file does not exist) and the names of the live tmux sessions.
    File operations are modelled as succeeding. A file is recorded as the
    text [path.read_text()] returns, which is how every reader of the
    queue sees it: [write_text(s)] writes [s] unchanged on POSIX and
    [read_text()] reads it with universal newlines, so a write of [s] is
    recorded as [universal_newlines s]; a rename keeps the file as it is. *)
Record world := {
  files : qstate -> ustr -> option ustr;
  tmux_sessions : list ustr
}.

(** Universal-newline reading: ["\r\n"] and a lone ["\r"] become ["\n"]. *)
Fixpoint universal_newlines (s : ustr) : ustr :=
  match s with
  | [] => []
  | c :: s' =>
      if (c =? 13)%N then
        match s' with
        | d :: s'' => if (d =? 10)%N then 10%N :: universal_newlines s''
                      else 10%N :: universal_newlines s'
        | [] => [10%N]
        end
      else c :: universal_newlines s'
  end.

Definition put_file (w : world) (q : qstate) (task_id : ustr) (c : option ustr) : world :=
  Build_world
    (fun q' id' => if qstate_eqb q' q && ustr_eqb id' task_id then c else files w q' id')
    (tmux_sessions w).

(** [shutil.move(src, dst)] of a task file (a rename; it replaces [dst]). *)
Definition move_file (w : world) (src dst : qstate) (task_id : ustr) (c : ustr) : world :=
  put_file (put_file w dst task_id (Some c)) src task_id None.

(** [tmux new-session -d -s name cmd]: fails on a name already in use. *)
Definition tmux_new_session (w : world) (name : ustr) : option world :=
  if existsb (ustr_eqb name) (tmux_sessions w) then None
  else Some (Build_world (files w) (name :: tmux_sessions w)).

(** [str.split("-")] and ["-".join(parts)] *)
Fixpoint split_dash (s : ustr) : list ustr :=
  match s with
  | [] => [[]]
  | c :: s' =>
      let r := split_dash s' in
      if (c =? 45)%N then [] :: r
      else match r with h :: t => (c :: h) :: t | [] => [[c]] end
  end.

Fixpoint join_dash (parts : list ustr) : ustr :=
  match parts with
  | [] => []
  | [p] => p
  | p :: ps => p ++ [45%N] ++ join_dash ps
  end.

Definition _derive_session_id (task_id : ustr) : ustr :=
  let parts := split_dash task_id in
  if (3 <=? List.length parts)%nat then join_dash (firstn 3 parts) else task_id.

(** [s.find(pat)]-style search returning the text after the first match. *)
Fixpoint after_first (pat s : ustr) : option ustr :=
  if startswith pat s then Some (skipn (List.length pat) s)
  else match s with [] => None | _ :: s' => after_first pat s' end.

(** [_extract_field(content, field)]: the first match of the label
    [**F:**], blanks and tabs, then the rest of the line (group 1), stripped, [None] when absent or empty; [.] stops at a
    newline. *)
Definition _extract_field (content field : ustr) : option ustr :=
  match after_first (u "**" ++ field ++ u ":**") content with
  | None => None
  | Some rest =>
      let line := take_while (fun c => negb (c =? 10)%N) rest in
      let value := py_strip (drop_while (fun c => (c =? 32)%N || (c =? 9)%N) line) in
      if is_empty value then None else Some value
  end.

Definition or_empty (o : option ustr) : ustr :=
  match o with Some s => s | None => [] end.

(** [DEFAULT_MODELS] *)
Definition default_model (agent : ustr) : option ustr :=
  if ustr_eqb agent (u "codex") then Some (u "o3")
  else if ustr_eqb agent (u "claude") then Some (u "claude-sonnet-4-20250514")
  else if ustr_eqb agent (u "gemini") then Some (u "gemini-2.5-pro")
  else None.

(** Whether [_build_launch_command] returns a command rather than raising
    [ValueError("Unknown agent")]; the text of the command is not used by
    the properties below. *)
Definition builds_launch_command (agent : ustr) : bool :=
  ustr_eqb agent (u "codex") || ustr_eqb agent (u "claude")
  || ustr_eqb agent (u "gemini") || ustr_eqb agent (u "human").

Inductive launch_result :=
  | Launched (session_id agent model : ustr)
  | LaunchError (http_code : nat) (error : ustr).

(** [_launch_task(task_id, model_override)] *)
Definition _launch_task (w : world) (task_id : ustr) (model_override : option ustr)
    : world * launch_result :=
  let '(w1, spec) :=
    match files w Pending task_id with
    | Some c => (move_file w Pending InProgress task_id c, Some c)
    | None => (w, files w InProgress task_id)
    end in
  match spec with
  | None => (w1, LaunchError 404 (u "Task not found: " ++ task_id))
  | Some content =>
      let agent := or_empty (_extract_field content (u "Agent")) in
      let model :=
        match model_override with
        | Some m => if is_empty m then or_empty (_extract_field content (u "Model")) else m
        | None => or_empty (_extract_field content (u "Model"))
        end in
      if is_empty agent then (w1, LaunchError 400 (u "Agent not found in task spec")) else
      let model :=
        if is_empty model then match default_model agent with Some d => d | None => model end
        else model in
      let session_id := _derive_session_id task_id in
      let tmux_session := _safe_tmux_session_name session_id in
      if negb (builds_launch_command agent)
      then (w1, LaunchError 400 (u "Unknown agent: " ++ agent)) else
      match tmux_new_session w1 tmux_session with
      | None => (w1, LaunchError 500 (u "duplicate session: " ++ tmux_session))
      | Some w2 => (w2, Launched session_id agent model)
      end
  end.

(** [re.sub] of the pattern LABEL, [\s] repeated, then [\S] repeated, group 1
    being LABEL and its blanks, by group 1 followed by [repl]: every match,
    left to right, is replaced; [\s*] is greedy and may cross newlines,
    [\S+] is the maximal run of non-space characters that follows.  The
    fuel is the length of the text (each step consumes a character). *)
Fixpoint re_sub_field_go (label repl : ustr) (fuel : nat) (s : ustr) : ustr :=
  match fuel with
  | O => s
  | S fuel' =>
      match s with
      | [] => []
      | c :: s' =>
          let after := skipn (List.length label) s in
          let ws := take_while is_space after in
          let rest := drop_while is_space after in
          let tok := take_while (fun x => negb (is_space x)) rest in
          if startswith label s && negb (is_empty tok)
          then label ++ ws ++ repl ++
               re_sub_field_go label repl fuel'
                 (drop_while (fun x => negb (is_space x)) rest)
          else c :: re_sub_field_go label repl fuel' s'
      end
  end.

Definition re_sub_field (label repl s : ustr) : ustr :=
  re_sub_field_go label repl (List.length s) s.

Fixpoint find_task (w : world) (task_id : ustr) (states : list qstate)
    : option (qstate * ustr) :=
  match states with
  | [] => None
  | q :: qs =>
      match files w q task_id with
      | Some c => Some (q, c)
      | None => find_task w task_id qs
      end
  end.

Inductive duplicate_result := Duplicated (new_task_id : ustr) | DuplicateNotFound.

(** [api_duplicate_task(task_id)]; [new_task_id] is
    [generate_task_id(title + " (copy)")] and [today] is
    [datetime.now().date().isoformat()], both read from the clock.  The
    generated id has the form task-DATE-TIME-SLUG, so the replacement
    template [\1<id>] inserts it literally. *)
Definition api_duplicate_task (w : world) (task_id new_task_id today : ustr)
    : world * duplicate_result :=
  match find_task w task_id STATES with
  | None => (w, DuplicateNotFound)
  | Some (_, content) =>
      let new_content := re_sub_field (u "**ID:**") new_task_id content in
      let new_content := re_sub_field (u "**Created:**") today new_content in
      (put_file w Pending new_task_id (Some (universal_newlines new_content)),
       Duplicated new_task_id)
  end.

(** ** Pending queue order (api_queue: priority_sort_key, pending_sort_key) *)

(** Lexicographic order of code-point strings (Python's [<] on [str]). *)
Fixpoint ustr_ltb (a b : ustr) : bool :=
  match a, b with
  | _, [] => false
  | [], _ :: _ => true
  | x :: a', y :: b' => (x <? y)%N || ((x =? y)%N && ustr_ltb a' b')
  end.

Definition is_digit (c : uchar) : bool := in_range 48 57 c.

(** [int(ds)] for a non-empty run of ASCII digits. *)
Definition digits_value (ds : ustr) : N :=
  fold_left (fun acc d => acc * 10 + (d - 48))%N ds 0%N.

(** One row of the pending listing: the [id] and [priority] fields parsed
    from the spec. *)
Record task_item := {
  item_id : ustr;
  item_priority : ustr
}.

Section PendingSort.

(** [str.upper], one code point at a time (Unicode tables). *)
Variable upper_cp : uchar -> ustr.
(** The class [[A-Z]] under [re.IGNORECASE]. *)
Variable az_ignorecase : uchar -> bool.

Definition py_upper (s : ustr) : ustr := flat_map upper_cp s.

(** [re.search(rf"\\bP{i}\\b", p) or f"P{i}" in p]: in the raw f-string
    the regex is a literal backslash, [b], [P], the digit, a backslash and
    [b], so the search is a substring test. *)
Definition priority_matches (i : nat) (p : ustr) : bool :=
  let d := N.of_nat (48 + i) in
  contains (u "\bP" ++ [d] ++ u "\b") p || contains (u "P" ++ [d]) p.

Definition priority_sort_key (it : task_item) : nat :=
  let p := py_upper (item_priority it) in
  if priority_matches 0 p then 0
  else if priority_matches 1 p then 1
  else if priority_matches 2 p then 2
  else if priority_matches 3 p then 3
  else 99.

(** [re.search(r"-([A-Z])([0-9]+)-", task_id, re.IGNORECASE)]: the
    leftmost match; [[0-9]+] is greedy and must be followed by [-]. *)
Fixpoint group_search (s : ustr) : option (uchar * ustr) :=
  match s with
  | [] => None
  | c :: s' =>
      let here :=
        if (c =? 45)%N then
          match s' with
          | g :: rest =>
              let ds := take_while is_digit rest in
              if az_ignorecase g && negb (is_empty ds)
                 && startswith [45%N] (drop_while is_digit rest)
              then Some (g, ds) else None
          | [] => None
          end
        else None in
      match here with
      | Some m => Some m
      | None => group_search s'
      end
  end.

Definition pending_sort_key (it : task_item) : nat * ustr * N * ustr :=
  let task_id := item_id it in
  match group_search task_id with
  | Some (g, ds) => (priority_sort_key it, py_upper [g], digits_value ds, task_id)
  | None => (priority_sort_key it, u "Z", 9999%N, task_id)
  end.

(** Python's [<] on the key tuples. *)
Definition key_ltb (k1 k2 : nat * ustr * N * ustr) : bool :=
  let '(p1, g1, n1, i1) := k1 in
  let '(p2, g2, n2, i2) := k2 in
  (p1 <? p2)%nat
  || ((p1 =? p2)%nat
      && (ustr_ltb g1 g2
          || (ustr_eqb g1 g2
              && ((n1 <? n2)%N || ((n1 =? n2)%N && ustr_ltb i1 i2))))).

Definition key_leb (k1 k2 : nat * ustr * N * ustr) : bool := negb (key_ltb k2 k1).

(** [list.sort(key=pending_sort_key)] is a stable sort: insertion after
    every element whose key is not greater. *)
Fixpoint insert_by_key (x : task_item) (l : list task_item) : list task_item :=
  match l with
  | [] => [x]
  | y :: l' =>
      if key_ltb (pending_sort_key x) (pending_sort_key y) then x :: y :: l'
      else y :: insert_by_key x l'
  end.

Definition sort_pending (items : list task_item) : list task_item :=
  fold_left (fun acc x => insert_by_key x acc) items [].

End PendingSort.

(** ** ASCII instances of the Unicode-dependent operations *)

Definition lower_ascii (c : uchar) : ustr :=
  [if in_range 65 90 c then (c + 32)%N else c].
Definition upper_ascii (c : uchar) : ustr :=
  [if in_range 97 122 c then (c - 32)%N else c].
Definition az_ascii (c : uchar) : bool := in_range 65 90 c || in_range 97 122 c.

(** [int(s)] on ASCII input: surrounding whitespace, an optional sign and
    decimal digits. *)
Definition int_ascii (s : ustr) : option Z :=
  let t := py_strip s in
  let '(neg, ds) :=
    match t with
    | 45%N :: r => (true, r)
    | 43%N :: r => (false, r)
    | _ => (false, t)
    end in
  if is_empty ds || negb (forallb is_digit ds) then None
  else let v := Z.of_N (digits_value ds) in Some (if neg then (- v)%Z else v).

(** ** Predicates used to state the properties *)

(** A window line that [_infer_status_from_output] records as a
    non-informational prompt. *)
Definition is_noninfo_prompt (lower_cp : uchar -> ustr) (line : ustr) : bool :=
  startswith PROMPT_PREFIX line
  && negb (_is_informational_prompt lower_cp (py_strip (skipn 2 line))).

(** "done only when a marker exists and a non-informational prompt appears
    at a later position" on the inspected window. *)
Definition done_requires_later_prompt (lower_cp : uchar -> ustr) (lines : list ustr)
    (ts : option Z) (now_ts : Z) : Prop :=
  fst (_infer_status_from_output lower_cp lines ts now_ts) = Done ->
  exists i j d p, (i < j)%nat
    /\ nth_error (recent_lines lines) i = Some d /\ is_done_line lower_cp d = true
    /\ nth_error (recent_lines lines) j = Some p /\ is_noninfo_prompt lower_cp p = true.

(** The non-empty ANSI-stripped lines of an input, in order. *)
Definition nonempty_stripped (lines : list ustr) : list ustr :=
  filter (fun l => negb (is_empty l)) (map (fun l => py_strip (_strip_ansi l)) lines).

(** ** Properties *)

(** ** Further helpers of server.py *)

(** [_detect_agent_type(session_id)] *)
Definition AGENT_TYPES : list ustr := map u ["claude"; "codex"; "gemini"; "terminal"]%string.

Definition _detect_agent_type (lower_cp : uchar -> ustr) (session_id : ustr) : ustr :=
  let lowered := py_lower lower_cp session_id in
  match find (fun c => startswith c lowered) AGENT_TYPES with
  | Some c => c
  | None => u "unknown"
  end.

(** [str.split(sep)] on a one-character separator. *)
Fixpoint split_on (sep : uchar) (s : ustr) : list ustr :=
  match s with
  | [] => [[]]
  | c :: s' =>
      let r := split_on sep s' in
      if (c =? sep)%N then [] :: r
      else match r with h :: t => (c :: h) :: t | [] => [[c]] end
  end.

(** [s.rstrip()] *)
Definition py_rstrip (s : ustr) : ustr := rev (drop_while is_space (rev s)).

(** Word characters of [re] on [str] patterns ([\w]: Unicode letters,
    digits and underscore); the [\b] assertions use it. *)
Section Priority.

Variable upper_cp : uchar -> ustr.
Variable is_word : uchar -> bool.

Definition word_at (c : option uchar) : bool :=
  match c with Some x => is_word x | None => false end.

(** [\b] between the character before and the character after. *)
Definition word_boundary (before after : option uchar) : bool :=
  xorb (word_at before) (word_at after).

(** [re.search(r"\bP([0-3])\b", s)]: group 1 of the leftmost match. *)
Fixpoint search_P_digit (prev : option uchar) (s : ustr) : option uchar :=
  match s with
  | [] => None
  | c :: s' =>
      let here :=
        match s' with
        | d :: s'' =>
            if (c =? 80)%N && in_range 48 51 d && word_boundary prev (Some c)
               && word_boundary (Some d) (hd_error s'')
            then Some d else None
        | [] => None
        end in
      match here with
      | Some d => Some d
      | None => search_P_digit (Some c) s'
      end
  end.

(** [re.search(r"\b([0-3])\b", s)]: group 1 of the leftmost match. *)
Fixpoint search_digit (prev : option uchar) (s : ustr) : option uchar :=
  match s with
  | [] => None
  | c :: s' =>
      if in_range 48 51 c && word_boundary prev (Some c)
         && word_boundary (Some c) (hd_error s')
      then Some c else search_digit (Some c) s'
  end.

Definition PRIORITIES : list ustr := map u ["P0"; "P1"; "P2"; "P3"]%string.

(** [_normalize_priority(priority, default=default)]; [priority] is a
    string or [None]. *)
Definition _normalize_priority (priority : option ustr) (default : ustr) : ustr :=
  let text := py_strip (or_empty priority) in
  if is_empty text then default else
  let upper := py_upper upper_cp text in
  if existsb (ustr_eqb upper) PRIORITIES then upper else
  match search_P_digit None upper with
  | Some d => [80%N; d]
  | None =>
      match search_digit None upper with
      | Some d => [80%N; d]
      | None => default
      end
  end.

End Priority.

(** [str.splitlines()]: the line boundaries are \n, \r, \r\n, \v, \f,
    \x1c, \x1d, \x1e, \x85, U+2028 and U+2029; a final boundary does not
    start an empty line.  [cur] is the current line, reversed. *)
Definition is_line_break (c : uchar) : bool :=
  in_range 10 13 c || in_range 28 30 c || (c =? 133)%N || (c =? 8232)%N || (c =? 8233)%N.

Fixpoint splitlines_go (cur : ustr) (s : ustr) : list ustr :=
  match s with
  | [] => if is_empty cur then [] else [rev cur]
  | c :: s' =>
      if (c =? 13)%N then
        match s' with
        | d :: s'' => if (d =? 10)%N then rev cur :: splitlines_go [] s''
                      else rev cur :: splitlines_go [] s'
        | [] => rev cur :: splitlines_go [] s'
        end
      else if is_line_break c then rev cur :: splitlines_go [] s'
      else splitlines_go (c :: cur) s'
  end.

Definition splitlines (s : ustr) : list ustr := splitlines_go [] s.

(** The class of [re.sub(r"^[#>*\\-\\s]+", "", line)]: in the raw string
    the class holds [#], [>], [*], a backslash, the range from backslash
    to backslash, and the letter [s]. *)
Definition title_strip_class (c : uchar) : bool :=
  (c =? 35)%N || (c =? 62)%N || (c =? 42)%N || (c =? 92)%N || (c =? 115)%N.

Fixpoint title_from_lines (ls : list ustr) : ustr :=
  match ls with
  | [] => u "Quick task"
  | raw :: ls' =>
      let line := py_strip raw in
      if is_empty line then title_from_lines ls' else
      let line := py_strip (drop_while title_strip_class line) in
      if is_empty line then title_from_lines ls' else
      if (80 <? List.length line)%nat then py_rstrip (firstn 77 line) ++ u "..."
      else line
  end.

(** [_derive_title_from_prompt(prompt)] *)
Definition _derive_title_from_prompt (prompt : ustr) : ustr :=
  title_from_lines (splitlines prompt).

(** [parse_template_fields(content)]: [re.findall(r"\{\{([A-Z_]+)\}\}")]
    scans left to right and resumes after each match; the fuel is the
    length of the text. *)
Definition is_field_char (c : uchar) : bool := in_range 65 90 c || (c =? 95)%N.

Fixpoint findall_fields (fuel : nat) (s : ustr) : list ustr :=
  match fuel with
  | O => []
  | S fuel' =>
      match s with
      | [] => []
      | _ :: s' =>
          let body := skipn 2 s in
          let name := take_while is_field_char body in
          let rest := drop_while is_field_char body in
          if startswith (u "{{") s && negb (is_empty name) && startswith (u "}}") rest
          then name :: findall_fields fuel' (skipn 2 rest)
          else findall_fields fuel' s'
      end
  end.

Fixpoint dedup_seen (seen : list ustr) (ms : list ustr) : list ustr :=
  match ms with
  | [] => []
  | m :: ms' =>
      if existsb (ustr_eqb m) seen then dedup_seen seen ms'
      else m :: dedup_seen (m :: seen) ms'
  end.

Definition AUTO_FIELDS : list ustr :=
  map u ["TASK_ID"; "DATE"; "AGENT"; "MODEL"; "PRIORITY"; "PROJECT"; "SESSION_ID";
         "WORKING_DIR"; "COMMIT_MESSAGE"]%string.

Record template_field := {
  field_name : ustr;
  field_required : bool;
  field_auto : bool
}.

Definition parse_template_fields (content : ustr) : list template_field :=
  map (fun m => {| field_name := m; field_required := true;
                   field_auto := existsb (ustr_eqb m) AUTO_FIELDS |})
      (dedup_seen [] (findall_fields (List.length content) content)).

(** One row of [_list_tmux_sessions]. *)
Record tmux_row := {
  row_id : ustr;
  row_tmux_name : ustr;
  row_created : ustr;
  row_activity : ustr;
  row_windows : ustr
}.

Definition parse_session_line (line : ustr) : option tmux_row :=
  if is_empty line then None else
  match split_on 124 line with
  | n :: c :: a :: w :: _ =>
      Some {| row_id := if startswith (u "orch-") n then skipn 5 n else n;
              row_tmux_name := n; row_created := c; row_activity := a; row_windows := w |}
  | _ => None
  end.

(** [_list_tmux_sessions()]; [out] is the standard output of
    [tmux list-sessions -F ...], [None] when it exits non-zero. *)
Definition _list_tmux_sessions (out : option ustr) : list tmux_row :=
  match out with
  | None => []
  | Some stdout =>
      fold_right (fun line acc => match parse_session_line line with
                                  | Some r => r :: acc | None => acc end)
                 [] (split_on 10 (py_strip stdout))
  end.

(** What tmux prints for one session with the format
    [#{session_name}|#{session_created}|#{session_activity}|#{session_windows}]. *)
Definition tmux_format_line (name created activity windows : ustr) : ustr :=
  name ++ [124%N] ++ created ++ [124%N] ++ activity ++ [124%N] ++ windows ++ [10%N].

(** ** Task endpoints of server.py over the queue directories *)

Inductive queue_response :=
  | QOk (state : qstate)
  | QMoved (from to : qstate)
  | QAlready (state : qstate)
  | QError (http_code : nat).

(** [api_block_task(task_id)] *)
Definition api_block_task (w : world) (task_id : ustr) : world * queue_response :=
  match files w Pending task_id with
  | Some c => (move_file w Pending Blocked task_id c, QOk Blocked)
  | None => (w, QError 404)
  end.

(** The state names of [valid_states]. *)
Definition qstate_of_name (s : ustr) : option qstate :=
  if ustr_eqb s (u "pending") then Some Pending
  else if ustr_eqb s (u "in-progress") then Some InProgress
  else if ustr_eqb s (u "blocked") then Some Blocked
  else if ustr_eqb s (u "completed") then Some Completed
  else if ustr_eqb s (u "learning") then Some Learning
  else None.

(** [api_move_task(task_id)]; [to] is the request's ["to"] string, or
    [None] when absent.  ([target_path.touch()] only updates the mtime,
    which the world does not record.) *)
Definition api_move_task (w : world) (task_id : ustr) (to : option ustr)
    : world * queue_response :=
  match qstate_of_name (py_strip (or_empty to)) with
  | None => (w, QError 400)
  | Some target =>
      match find_task w task_id STATES with
      | None => (w, QError 404)
      | Some (st, c) =>
          if qstate_eqb st target then (w, QAlready st)
          else (move_file w st target task_id c, QMoved st target)
      end
  end.

(** [api_delete_task(task_id)] *)
Definition api_delete_task (w : world) (task_id : ustr) : world * queue_response :=
  match find_task w task_id STATES with
  | None => (w, QError 404)
  | Some (st, _) => (put_file w st task_id None, QOk st)
  end.


(** [re.search(r"^# Task:\s*(.+)", content, re.MULTILINE)]: at a line
    start, after the label, [\s*] takes the longest run of blanks that
    still leaves one character other than a newline for [(.+)] (it gives
    back blanks otherwise), and [(.+)] runs to the end of the line. *)
Definition title_at (r : ustr) (k : nat) : option ustr :=
  match nth_error r k with
  | Some c => if (c =? 10)%N then None
              else Some (take_while (fun x => negb (x =? 10)%N) (skipn k r))
  | None => None
  end.

Fixpoint title_try (r : ustr) (k : nat) : option ustr :=
  match title_at r k with
  | Some g => Some g
  | None => match k with O => None | S k' => title_try r k' end
  end.

Fixpoint title_search (line_start : bool) (s : ustr) : option ustr :=
  let here :=
    if line_start && startswith (u "# Task:") s then
      let r := skipn 7 s in title_try r (List.length (take_while is_space r))
    else None in
  match here with
  | Some g => Some g
  | None => match s with [] => None | c :: s' => title_search (c =? 10)%N s' end
  end.

Record task_spec := {
  ts_id : ustr; ts_title : ustr; ts_agent : ustr; ts_priority : ustr;
  ts_project : ustr; ts_created : ustr; ts_duration : ustr; ts_model : ustr;
  ts_tier : ustr; ts_category : ustr; ts_purpose : ustr
}.

(** [_parse_task_spec(path)] for a file whose stem is [stem]. *)
Definition _parse_task_spec (stem content : ustr) : task_spec :=
  let field f := py_strip (or_empty (_extract_field content (u f))) in
  {| ts_id := py_strip (match _extract_field content (u "ID") with
                        | Some v => v | None => stem end);
     ts_title := match title_search true content with
                 | Some g => py_strip g | None => stem end;
     ts_agent := field "Agent"%string; ts_priority := field "Priority"%string;
     ts_project := field "Project"%string; ts_created := field "Created"%string;
     ts_duration := field "Estimated Duration"%string; ts_model := field "Model"%string;
     ts_tier := field "Tier"%string; ts_category := field "Category"%string;
     ts_purpose := field "Purpose"%string |}.

Inductive get_result :=
  | TaskFound (state : qstate) (content : ustr) (spec : task_spec)
  | TaskNotFound.

(** [api_get_task(task_id)] *)
Definition api_get_task (w : world) (task_id : ustr) : get_result :=
  match find_task w task_id STATES with
  | None => TaskNotFound
  | Some (st, c) => TaskFound st c (_parse_task_spec task_id c)
  end.





(** ** Status server (status_server.py) *)

(** [[A-Za-z0-9_.-]] *)
Definition is_sid_char (c : uchar) : bool :=
  in_range 65 90 c || in_range 97 122 c || in_range 48 57 c
  || (c =? 95)%N || (c =? 46)%N || (c =? 45)%N.

(** [SESSION_ID_RE.match(session_id)] with [^[A-Za-z0-9_.-]+$]; [$] also
    matches just before a newline that ends the string. *)
Definition _validate_session_id (session_id : ustr) : bool :=
  let run := take_while is_sid_char session_id in
  let rest := drop_while is_sid_char session_id in
  negb (is_empty run) && (is_empty rest || ustr_eqb rest [10%N]).

(** A validated [StatusPayload]. *)
Record status_payload := {
  sp_state : ustr;
  sp_message : option ustr;
  sp_progress : option Z;
  sp_updated_at : option ustr
}.

Definition STATUS_STATES : list ustr :=
  map u ["idle"; "working"; "needs_input"; "done"; "error"]%string.

(** The body validation of [StatusPayload]: [state] in [STATES],
    [progress] within 0..100. *)
Definition payload_valid (p : status_payload) : bool :=
  existsb (ustr_eqb (sp_state p)) STATUS_STATES
  && match sp_progress p with None => true | Some n => (0 <=? n)%Z && (n <=? 100)%Z end.

(** A (regular) file of STATUS_DIR: a record this server wrote, other
    JSON (a mapping or not), UTF-8 text that is not JSON, or bytes that are
    not UTF-8 (reading them as text raises [UnicodeDecodeError]). *)
Inductive status_file :=
  | StatusJson (data : status_payload)
  | ForeignJson (is_object : bool)
  | NotJson
  | NotUtf8.

(** STATUS_DIR as [os.listdir] gives it: file names with their contents. *)
Definition status_dir := list (ustr * status_file).

Definition _session_file (session_id : ustr) : ustr := session_id ++ u ".json".

Fixpoint dir_lookup (d : status_dir) (name : ustr) : option status_file :=
  match d with
  | [] => None
  | (n, f) :: d' => if ustr_eqb n name then Some f else dir_lookup d' name
  end.

(** [os.replace(tmp, path)]: the file is replaced, or created. *)
Fixpoint dir_replace (d : status_dir) (name : ustr) (f : status_file) : status_dir :=
  match d with
  | [] => [(name, f)]
  | (n, g) :: d' => if ustr_eqb n name then (n, f) :: d' else (n, g) :: dir_replace d' name f
  end.

Definition dir_remove (d : status_dir) (name : ustr) : status_dir :=
  filter (fun e => negb (ustr_eqb (fst e) name)) d.

Inductive status_response :=
  | SOk (session_id : ustr) (content : status_file)
  | SDeleted (session_id : ustr)
  | SError (http_code : nat).

(** The temporary file [_write_status] writes before [os.replace]. *)
Definition tmp_file (session_id : ustr) : ustr := _session_file session_id ++ u ".tmp".

(** [post_status(session_id, payload)]; [now] is [_now_rfc3339()].
    [_write_status] writes [<id>.json.tmp] (replacing a file of that name)
    and [os.replace]s it onto [<id>.json], so the temporary name is gone
    afterwards. *)
Definition post_status (d : status_dir) (session_id : ustr) (p : status_payload)
    (now : ustr) : status_dir * status_response :=
  if negb (payload_valid p) then (d, SError 422) else
  if negb (_validate_session_id session_id) then (d, SError 400) else
  let data :=
    match sp_updated_at p with
    | Some t => if is_empty t then
                  Build_status_payload (sp_state p) (sp_message p) (sp_progress p) (Some now)
                else p
    | None => Build_status_payload (sp_state p) (sp_message p) (sp_progress p) (Some now)
    end in
  (dir_replace (dir_remove d (tmp_file session_id)) (_session_file session_id) (StatusJson data),
   SOk session_id (StatusJson data)).

(** [get_status(session_id)]: a file that is not UTF-8 or not JSON, or
    JSON that is not a mapping, makes the handler raise (HTTP 500). *)
Definition get_status (d : status_dir) (session_id : ustr) : status_response :=
  if negb (_validate_session_id session_id) then SError 400 else
  match dir_lookup d (_session_file session_id) with
  | None => SError 404
  | Some NotJson | Some NotUtf8 | Some (ForeignJson false) => SError 500
  | Some f => SOk session_id f
  end.

(** [delete_status(session_id)] *)
Definition delete_status (d : status_dir) (session_id : ustr) : status_dir * status_response :=
  if negb (_validate_session_id session_id) then (d, SError 400) else
  match dir_lookup d (_session_file session_id) with
  | None => (d, SError 404)
  | Some _ => (dir_remove d (_session_file session_id), SDeleted session_id)
  end.




(** A text with no blank character at either end, as str.strip leaves it. *)
Definition no_blank_ends (s : ustr) : Prop :=
  match s with
  | [] => True
  | c :: _ => is_space c = false /\ exists t z, s = t ++ [z] /\ is_space z = false
  end.

(** The state names [_normalize_state] returns, as strings. *)
Definition status_name (st : status) : ustr :=
  match st with
  | Running => u "running"
  | Error => u "error"
  | Done => u "done"
  | NeedsInput => u "needs_input"
  | Working => u "working"
  | Idle => u "idle"
  end.

(** The queue directory of each state, as the endpoints name it. *)
Definition qstate_name (q : qstate) : ustr :=
  match q with
  | Pending => u "pending"
  | InProgress => u "in-progress"
  | Blocked => u "blocked"
  | Completed => u "completed"
  | Learning => u "learning"
  end.

(** The placeholder [{{NAME}}] of a template field. *)
Definition field_pat (n : ustr) : ustr := u "{{" ++ n ++ u "}}".

(** What [list-sessions] prints for a list of sessions
    (name, created, activity, windows), one line each. *)
Definition tmux_listing (sessions : list (ustr * ustr * ustr * ustr)) : ustr :=
  List.concat (map (fun '(n, c, a, w) => tmux_format_line n c a w) sessions).

(** One listed session without its line end. *)
Definition tmux_line (e : ustr * ustr * ustr * ustr) : ustr :=
  let '(n, c, a, w) := e in n ++ [124%N] ++ c ++ [124%N] ++ a ++ [124%N] ++ w.

(** A field with no blank character and no '|'. *)
Definition tmux_field_ok (s : ustr) : bool :=
  forallb (fun ch => negb (is_space ch) && negb (ch =? 124)%N) s.

Definition tmux_session_ok (e : ustr * ustr * ustr * ustr) : bool :=
  let '(n, c, a, w) := e in
  negb (is_empty n) && tmux_field_ok n && tmux_field_ok c && tmux_field_ok a
  && tmux_field_ok w.

(** The row the dashboard should show for one listed session: the id
    without an [orch-] prefix, and the fields as printed. *)
Definition tmux_expected_row (e : ustr * ustr * ustr * ustr) : tmux_row :=
  let '(n, c, a, w) := e in
  {| row_id := if startswith (u "orch-") n then skipn 5 n else n;
     row_tmux_name := n; row_created := c; row_activity := a; row_windows := w |}.




(** ** Example queues *)

Definition demo_task_id : ustr := u "task-20240101-120000-fix-login".

Definition demo_queue (spec : ustr) : world :=
  Build_world (fun q id => if qstate_eqb q Pending && ustr_eqb id demo_task_id
                           then Some spec else None) [].

Definition demo_spec : ustr :=
  u "# Task: Fix login" ++ [10%N] ++ u "**ID:** task-20240101-120000-fix-login"
  ++ [10%N] ++ u "**Agent:** codex" ++ [10%N].

Definition demo_spec_no_agent : ustr :=
  u "# Task: Fix login" ++ [10%N] ++ u "**ID:** task-20240101-120000-fix-login" ++ [10%N].

Definition demo_spec_blank_id : ustr :=
  u "# Task: Fix login" ++ [10%N] ++ u "**ID:**" ++ [10%N]
  ++ u "**Agent:** codex" ++ [10%N].

(** An all-ASCII string. *)
Definition ascii_str (s : ustr) : bool := forallb (fun c => (c <? 128)%N) s.

(** Three pending tasks: groups A01 and H01 at P1, A02 at P0. *)
Definition item_A01 : task_item :=
  {| item_id := u "task-20240101-120000-A01-x"; item_priority := u "P1" |}.
Definition item_A02 : task_item :=
  {| item_id := u "task-20240101-120000-A02-x"; item_priority := u "P0" |}.
Definition item_H01 : task_item :=
  {| item_id := u "task-20240101-120000-H01-x"; item_priority := u "P1" |}.

Lemma find_app_hit {A} (f : A -> bool) (xs : list A) (y : A) (ys : list A) :
  Forall (fun x => f x = false) xs -> f y = true -> find f (xs ++ y :: ys) = Some y.
Proof.
  induction 1 as [|x xs Hx _ IH]; intros Hy; simpl.
  - now rewrite Hy.
  - rewrite Hx. now apply IH.
Qed.

Lemma find_all_false {A} (f : A -> bool) (xs : list A) :
  Forall (fun x => f x = false) xs -> find f xs = None.
Proof. induction 1 as [|x xs Hx _ IH]; simpl; [reflexivity | now rewrite Hx]. Qed.

Lemma find_exists {A} (f : A -> bool) (xs : list A) :
  (exists x, In x xs /\ f x = true) -> exists y, find f xs = Some y.
Proof.
  induction xs as [|x xs IH]; simpl; intros (z & Hin & Hz); [contradiction|].
  destruct (f x) eqn:Ex; [now exists x|].
  destruct Hin as [<-|Hin]; [congruence|]. apply IH. now exists z.
Qed.

Lemma scan_step_noninfo lower_cp st i l :
  latest_noninfo_prompt_idx (scan_step lower_cp st i l)
  = if is_noninfo_prompt lower_cp l then Some i else latest_noninfo_prompt_idx st.
Proof.
  unfold scan_step, is_noninfo_prompt.
  destruct (startswith PROMPT_PREFIX l); simpl; [|reflexivity].
  destruct (_is_informational_prompt lower_cp _); reflexivity.
Qed.

Lemma scan_from_noninfo lower_cp ls : forall st i,
  latest_noninfo_prompt_idx (scan_from lower_cp st i ls) <> None <->
  (latest_noninfo_prompt_idx st <> None
   \/ exists p, In p ls /\ is_noninfo_prompt lower_cp p = true).
Proof.
  induction ls as [|l ls IH]; intros st i; simpl.
  - split; [now left|]. intros [H|(p & [] & _)]. exact H.
  - rewrite IH, scan_step_noninfo.
    destruct (is_noninfo_prompt lower_cp l) eqn:E; split.
    + intros _. right. exists l. auto.
    + intros _. left. discriminate.
    + intros [H|(p & Hp & Hq)]; [now left|]. right. exists p. auto.
    + intros [H|(p & [<-|Hp] & Hq)]; [now left|congruence|].
      right. exists p. auto.
Qed.

Ltac split_branches :=
  repeat match goal with
         | |- context [match ?x with _ => _ end] => destruct x
         | |- context [if ?b then _ else _] => destruct b
         end.

Lemma infer_prompt_not_done lower_cp st recent text ts now :
  fst (infer_prompt lower_cp st recent text ts now) <> Done.
Proof.
  unfold infer_prompt, infer_working, infer_tail.
  split_branches; simpl; discriminate.
Qed.

Lemma done_line_nonempty lower_cp d : is_done_line lower_cp d = true -> d <> [].
Proof. intros H ->. discriminate H. Qed.

(** C2: when the inspected window (the last 20 cleaned lines) contains a
    line with an error marker, inference returns [error] with the newest
    such line cut to 160 characters, whatever else the window holds and
    whatever the activity timestamp and the clock are. *)
Theorem error_marker_wins :
  forall lower_cp lines ts now_ts pre l post,
    recent_lines lines = pre ++ l :: post ->
    is_error_line lower_cp l = true ->
    Forall (fun l' => is_error_line lower_cp l' = false) post ->
    _infer_status_from_output lower_cp lines ts now_ts = (Error, firstn 160 l).
Proof.
  intros lower_cp lines ts now_ts pre l post Hr Hl Hpost.
  unfold recent_lines in Hr. unfold _infer_status_from_output.
  destruct (cleaned lines) as [|c cs] eqn:Ec.
  - destruct pre; discriminate Hr.
  - cbv zeta. rewrite Hr, rev_app_distr. simpl rev at 1.
    rewrite <- app_assoc. simpl app.
    rewrite (find_app_hit _ _ _ _ (Forall_rev Hpost) Hl).
    reflexivity.
Qed.

(** Witness of C2 on a window with a working line, a prompt and a done
    marker besides the error. *)
Lemma error_marker_wins_witness :
  let lines := [u "working (2s)"; u "Task complete"; PROMPT_PREFIX ++ u "go";
                u "Error: disk full"; u "esc to interrupt"] in
  recent_lines lines = [u "working (2s)"; u "Task complete"; PROMPT_PREFIX ++ u "go"]
                       ++ u "Error: disk full" :: [u "esc to interrupt"]
  /\ _infer_status_from_output lower_ascii lines (Some 0%Z) 1000%Z
     = (Error, firstn 160 (u "Error: disk full")).
Proof.
  cbv zeta. split; [vm_compute; reflexivity|].
  apply (error_marker_wins lower_ascii _ (Some 0%Z) 1000%Z
           [u "working (2s)"; u "Task complete"; PROMPT_PREFIX ++ u "go"]
           (u "Error: disk full") [u "esc to interrupt"]).
  - vm_compute. reflexivity.
  - vm_compute. reflexivity.
  - repeat constructor.
Defined.

(** C1 (as the code has it): inference returns [done] exactly when no
    inspected line carries an error marker, some inspected line carries a
    done-class marker and some inspected line is a non-informational
    prompt; where the prompt stands relative to the marker is not
    checked. *)
Theorem done_iff_marker_and_prompt :
  forall lower_cp lines ts now_ts,
    fst (_infer_status_from_output lower_cp lines ts now_ts) = Done <->
    (Forall (fun l => is_error_line lower_cp l = false) (recent_lines lines)
     /\ (exists d, In d (recent_lines lines) /\ is_done_line lower_cp d = true)
     /\ (exists p, In p (recent_lines lines) /\ is_noninfo_prompt lower_cp p = true)).
Proof.
  intros lower_cp lines ts now_ts.
  unfold recent_lines, _infer_status_from_output.
  destruct (cleaned lines) as [|c cs] eqn:Ec.
  { simpl. split; [discriminate|]. intros (_ & (d & [] & _) & _). }
  cbv zeta.
  set (R := lastn 20 (c :: cs)).
  set (st := scan_from lower_cp scan0 0 R).
  assert (Hnp : latest_noninfo_prompt_idx st <> None <->
                exists p, In p R /\ is_noninfo_prompt lower_cp p = true).
  { unfold st. rewrite scan_from_noninfo. simpl.
    split; [intros [H|H]; [congruence|exact H] | now right]. }
  split.
  - destruct (find (is_error_line lower_cp) (rev R)) eqn:Ee; [discriminate|].
    destruct (find (is_done_line lower_cp) (rev R)) as [dl|] eqn:Ed;
      destruct (latest_noninfo_prompt_idx st) as [k|] eqn:Ek;
      try (intros H; exfalso; exact (infer_prompt_not_done _ _ _ _ _ _ H)).
    destruct (is_empty dl);
      [intros H; exfalso; exact (infer_prompt_not_done _ _ _ _ _ _ H)|].
    intros _. split; [|split].
    + apply Forall_forall. intros x Hx.
      apply (find_none _ _ Ee). now apply (proj1 (in_rev _ _)).
    + apply find_some in Ed. destruct Ed as [Hin Hd].
      exists dl. split; [exact (proj2 (in_rev _ _) Hin)|exact Hd].
    + apply Hnp. congruence.
  - intros (Herr & Hdone & Hprompt).
    rewrite (find_all_false _ _ (Forall_rev Herr)).
    destruct (find_exists (is_done_line lower_cp) (rev R)) as [dl Ed].
    { destruct Hdone as (d & Hin & Hd). exists d. split; [exact (proj1 (in_rev _ _) Hin)|exact Hd]. }
    rewrite Ed.
    destruct (latest_noninfo_prompt_idx st) as [k|] eqn:Ek;
      [|exfalso; apply (proj2 Hnp Hprompt); reflexivity].
    apply find_some in Ed. destruct Ed as [_ Hd].
    destruct dl as [|x dl]; [exact (False_ind _ (done_line_nonempty _ _ Hd eq_refl))|].
    reflexivity.
Qed.

(** C1 as stated fails: a prompt typed before the completion marker, with
    nothing after the marker, is classified [done]. *)
Lemma done_without_later_prompt :
  ~ done_requires_later_prompt lower_ascii
      [PROMPT_PREFIX ++ u "run the tests"; u "Task complete."] None 0%Z.
Proof.
  unfold done_requires_later_prompt. intros H.
  destruct (H eq_refl) as (i & j & d & p & Hij & Hd & Hdd & Hp & Hpp).
  vm_compute in Hd, Hp.
  destruct i as [|[|[|i]]]; destruct j as [|[|[|j]]]; simpl in Hd, Hp;
    try discriminate Hd; try discriminate Hp; try lia.
  injection Hd as <-. vm_compute in Hdd. discriminate Hdd.
Qed.

Lemma lastn_nonempty {A} (n : nat) (x : A) (l : list A) :
  (0 < n)%nat -> lastn n (x :: l) <> [].
Proof.
  intros Hn H. pose proof (length_skipn (List.length (x :: l) - n) (x :: l)) as Hl.
  unfold lastn in H. rewrite H in Hl. cbn [List.length] in Hl. lia.
Qed.

(** The classification depends on the input only through the last 20
    entries of [cleaned]. *)
Lemma infer_depends_on_window lower_cp l1 l2 ts now_ts :
  lastn 20 (cleaned l1) = lastn 20 (cleaned l2) ->
  _infer_status_from_output lower_cp l1 ts now_ts
  = _infer_status_from_output lower_cp l2 ts now_ts.
Proof.
  intros H. unfold _infer_status_from_output.
  destruct (cleaned l1) as [|a l1'] eqn:E1; destruct (cleaned l2) as [|b l2'] eqn:E2;
    try reflexivity.
  - exfalso. apply (lastn_nonempty 20 b l2'); [lia|]. rewrite <- H. reflexivity.
  - exfalso. apply (lastn_nonempty 20 a l1'); [lia|]. rewrite H. reflexivity.
  - cbv zeta. now rewrite H.
Qed.

(** C10 fails at a concrete input: [cleaned] keeps the lines that are
    blank only after [_strip_ansi] (the filter tests the raw line), so
    twenty lines holding only a colour reset push a newer error line out of
    the window. *)
Theorem ansi_only_lines_fill_window :
  let err := u "Error: boom" in
  let reset := [27; 91; 48; 109]%N in
  lastn 20 (nonempty_stripped (err :: repeat reset 20))
    = lastn 20 (nonempty_stripped [err])
  /\ _infer_status_from_output lower_ascii (err :: repeat reset 20) None 0%Z
     = (Running, u "Running")
  /\ _infer_status_from_output lower_ascii [err] None 0%Z = (Error, err).
Proof. cbv zeta. split; [|split]; vm_compute; reflexivity. Qed.

Lemma drop_while_snoc p l c :
  p c = false -> drop_while p (l ++ [c]) = drop_while p l ++ [c].
Proof.
  intros Hc. induction l as [|x l IH]; simpl.
  - now rewrite Hc.
  - destruct (p x); [exact IH|reflexivity].
Qed.

Lemma py_strip_cons_nonspace c s :
  is_space c = false -> exists t, py_strip (c :: s) = c :: t.
Proof.
  intros Hc. unfold py_strip. simpl drop_while at 2. rewrite Hc. simpl rev.
  rewrite drop_while_snoc by exact Hc. rewrite rev_app_distr. simpl.
  eexists. reflexivity.
Qed.

(** With the prefix as written (four code points) and [line[2:]], every
    prompt text starts with U+00BA, so no prompt line is ever classified
    informational, whatever the text after the glyph (Python lowers
    U+00BA to itself). *)
Lemma prompt_text_never_informational lower_cp line :
  lower_cp 186%N = [186%N] ->
  startswith PROMPT_PREFIX line = true ->
  _is_informational_prompt lower_cp (py_strip (skipn 2 line)) = false.
Proof.
  intros Hlow Hpre.
  destruct line as [|a [|b [|c [|d rest]]]]; cbn [startswith PROMPT_PREFIX] in Hpre;
    repeat rewrite Bool.andb_false_r in Hpre; try discriminate Hpre.
  apply andb_prop in Hpre as [_ Hpre].
  apply andb_prop in Hpre as [_ Hpre]. apply andb_prop in Hpre as [Hc Hpre].
  apply N.eqb_eq in Hc. subst c. simpl skipn.
  destruct (py_strip_cons_nonspace 186%N (d :: rest) eq_refl) as [t Ht].
  rewrite Ht. destruct (py_strip_cons_nonspace 186%N t eq_refl) as [t' Ht'].
  unfold _is_informational_prompt. rewrite Ht'. unfold py_lower.
  simpl flat_map. rewrite Hlow. simpl app. simpl is_empty. cbv iota.
  unfold ustr_eqb.
  destruct (list_eq_dec N.eq_dec _ (u "use /skills to list available skills")) as [E|_];
    [discriminate E|].
  destruct (list_eq_dec N.eq_dec _ (u "implement {feature}")) as [E|_];
    [discriminate E|].
  reflexivity.
Qed.

(** C4 fails at a concrete input.  The terminal prints the prompt glyph
    U+203A: such a line is not a prompt for the code, so a stale
    demotable working line stays [working] (first conjunct).  A line
    carrying the four code points written in the source is a prompt, but
    its text is never informational, so it reads as an actionable prompt
    and gives [needs_input] after 5 seconds (second conjunct). *)
Theorem stale_informational_prompt_not_demoted :
  let working := u "Working (12s)" in
  let tail := u "use /skills to list available skills" in
  _infer_status_from_output lower_ascii [working; [8250; 32]%N ++ tail] (Some 80%Z) 100%Z
    = (Working, working)
  /\ fst (_infer_status_from_output lower_ascii [working; PROMPT_PREFIX ++ tail]
            (Some 95%Z) 100%Z) = NeedsInput.
Proof. cbv zeta. split; vm_compute; reflexivity. Qed.

(** ** Reconciliation *)

Lemma py_lower_agrees lower_cp s :
  (forall c, (c < 128)%N -> lower_cp c = lower_ascii c) ->
  forallb (fun c => (c <? 128)%N) s = true ->
  py_lower lower_cp s = py_lower lower_ascii s.
Proof.
  intros Hlow. induction s as [|c s IH]; simpl; [reflexivity|].
  intros H. apply andb_prop in H as [Hc Hs]. apply N.ltb_lt in Hc.
  rewrite Hlow by exact Hc. now rewrite IH.
Qed.

Lemma normalize_state_agrees lower_cp s :
  (forall c, (c < 128)%N -> lower_cp c = lower_ascii c) ->
  py_strip s = s -> forallb (fun c => (c <? 128)%N) s = true ->
  _normalize_state lower_cp (Some s) = _normalize_state lower_ascii (Some s).
Proof.
  intros Hlow Hs Ha. unfold _normalize_state. rewrite Hs.
  now rewrite (py_lower_agrees lower_cp s Hlow Ha).
Qed.

(** C3: a Status Record whose state normalizes (in_progress and running to
    working, blocked to needs_input, complete and completed to done, failed
    to error) fixes the session's state, and the result does not depend on
    the captured pane, the activity field or the clock; otherwise the state
    is the one inferred from the captured lines, with the activity parsed by
    [int] and a value [int] rejects passed as an absent timestamp.  The
    hypothesis is that [str.lower] is the ASCII mapping on ASCII. *)
Theorem explicit_record_authoritative :
  forall (lower_cp : uchar -> ustr) (py_int : ustr -> option Z),
    (forall c, (c < 128)%N -> lower_cp c = lower_ascii c) ->
    (_normalize_state lower_cp (Some (u "in_progress")) = Some Working
     /\ _normalize_state lower_cp (Some (u "running")) = Some Working
     /\ _normalize_state lower_cp (Some (u "blocked")) = Some NeedsInput
     /\ _normalize_state lower_cp (Some (u "complete")) = Some Done
     /\ _normalize_state lower_cp (Some (u "completed")) = Some Done
     /\ _normalize_state lower_cp (Some (u "failed")) = Some Error)
    /\ (forall payload st act1 act2 pane1 pane2 now1 now2,
          _normalize_state lower_cp (rec_state payload) = Some st ->
          fst (reconcile_session lower_cp py_int payload act1 pane1 now1) = st
          /\ reconcile_session lower_cp py_int payload act1 pane1 now1
             = reconcile_session lower_cp py_int payload act2 pane2 now2)
    /\ (forall payload act pane now_ts,
          _normalize_state lower_cp (rec_state payload) = None ->
          fst (reconcile_session lower_cp py_int payload act pane now_ts)
          = fst (_infer_status_from_output lower_cp (captured_lines pane) (py_int act) now_ts)
          /\ (py_int act = None ->
              fst (reconcile_session lower_cp py_int payload act pane now_ts)
              = fst (_infer_status_from_output lower_cp (captured_lines pane) None now_ts))).
Proof.
  intros lower_cp py_int Hlow. split; [|split].
  - repeat split; rewrite normalize_state_agrees by (exact Hlow || reflexivity);
      vm_compute; reflexivity.
  - intros payload st act1 act2 pane1 pane2 now1 now2 H.
    unfold reconcile_session. rewrite H. split; reflexivity.
  - intros payload act pane now_ts H.
    assert (E : fst (reconcile_session lower_cp py_int payload act pane now_ts)
                = fst (_infer_status_from_output lower_cp (captured_lines pane) (py_int act) now_ts)).
    { unfold reconcile_session. rewrite H.
      destruct (_infer_status_from_output _ _ _ _). reflexivity. }
    split; [exact E|]. intros Hn. rewrite E, Hn. reflexivity.
Qed.

Lemma explicit_record_authoritative_witness :
  (forall c, (c < 128)%N -> lower_ascii c = lower_ascii c)
  /\ fst (reconcile_session lower_ascii int_ascii
            (Build_status_record (Some (u " Running ")) None) (u "oops")
            (Some [u "Traceback (most recent call last):"]) 0%Z) = Working.
Proof.
  split; [intros; reflexivity|].
  apply (proj1 (proj1 (proj2 (explicit_record_authoritative lower_ascii int_ascii
                                (fun c _ => eq_refl)))
                  (Build_status_record (Some (u " Running ")) None) Working
                  (u "oops") (u "oops")
                  (Some [u "Traceback (most recent call last):"])
                  (Some [u "Traceback (most recent call last):"]) 0%Z 0%Z
                  ltac:(vm_compute; reflexivity))).
Defined.

(** ** Session resolution *)

Lemma ustr_eqb_true a b : ustr_eqb a b = true -> a = b.
Proof. unfold ustr_eqb. destruct (list_eq_dec N.eq_dec a b); congruence. Qed.

Lemma probe_find has_session seen cands :
  (forall s, In s seen -> has_session s = false) ->
  probe has_session seen cands
  = find (fun c => negb (is_empty c) && has_session c) cands.
Proof.
  revert seen. induction cands as [|c cs IH]; intros seen Hseen; simpl; [reflexivity|].
  destruct (is_empty c) eqn:Ee; simpl.
  - now apply IH.
  - destruct (existsb (ustr_eqb c) seen) eqn:Es; simpl.
    + apply existsb_exists in Es. destruct Es as (s & Hs & Heq).
      apply ustr_eqb_true in Heq. subst s. rewrite (Hseen c Hs). now apply IH.
    + destruct (has_session c) eqn:Eh; [reflexivity|].
      apply IH. intros s [<-|Hs]; [exact Eh|now apply Hseen].
Qed.

Lemma safe_name_nonempty c s : _safe_tmux_session_name (c :: s) <> [].
Proof.
  unfold _safe_tmux_session_name. simpl map.
  destruct (64 <? _)%nat; simpl; discriminate.
Qed.

(** C6 (as the code has it): resolve returns the first candidate, in the
    order sanitized id, orch- + raw id, orch- + sanitized id, raw id, that
    is non-empty and reported by the multiplexer (empty candidates are
    skipped, and repeated ones change nothing); for a non-empty id this is
    exactly the first reported candidate.  For task-20240101-001 it finds
    orch-task-20240101-001 or task-20240101-001 when only that session
    exists, and nothing when neither does. *)
Theorem resolve_first_existing_candidate :
  (forall has_session session_id,
     _resolve_tmux_session has_session session_id
     = find (fun c => negb (is_empty c) && has_session c) (resolve_candidates session_id))
  /\ (forall has_session session_id, session_id <> [] ->
        _resolve_tmux_session has_session session_id
        = resolve_as_specified has_session session_id)
  /\ _resolve_tmux_session (tmux_has_session [u "orch-task-20240101-001"]) (u "task-20240101-001")
     = Some (u "orch-task-20240101-001")
  /\ _resolve_tmux_session (tmux_has_session [u "task-20240101-001"]) (u "task-20240101-001")
     = Some (u "task-20240101-001")
  /\ _resolve_tmux_session (tmux_has_session [u "orch-other"]) (u "task-20240101-001") = None.
Proof.
  assert (Hgen : forall has_session session_id,
     _resolve_tmux_session has_session session_id
     = find (fun c => negb (is_empty c) && has_session c) (resolve_candidates session_id)).
  { intros. apply probe_find. intros s []. }
  split; [exact Hgen|]. split; [|vm_compute; repeat split].
  intros has_session [|c s] Hne; [congruence|].
  rewrite Hgen. unfold resolve_as_specified, resolve_candidates. simpl find.
  destruct (is_empty (_safe_tmux_session_name (c :: s))) eqn:E1.
  { destruct (_safe_tmux_session_name (c :: s)) eqn:E; [|discriminate E1].
    exfalso. exact (safe_name_nonempty c s E). }
  reflexivity.
Qed.

(** C6 as stated fails for the empty id: the only live session is named
    orch- (its logical id is empty), tmux reports the empty target as the
    current session, and the code skips that first candidate. *)
Lemma resolve_empty_id_skips_candidate :
  _resolve_tmux_session (tmux_has_session [u "orch-"]) [] = Some (u "orch-")
  /\ resolve_as_specified (tmux_has_session [u "orch-"]) [] = Some [].
Proof. split; vm_compute; reflexivity. Qed.

(** ** Launch *)

Lemma ustr_eqb_refl a : ustr_eqb a a = true.
Proof. unfold ustr_eqb. destruct (list_eq_dec N.eq_dec a a); congruence. Qed.

Lemma files_put_file w q id c q' id' :
  files (put_file w q id c) q' id'
  = if qstate_eqb q' q && ustr_eqb id' id then c else files w q' id'.
Proof. reflexivity. Qed.

Lemma files_move_src w src dst id c :
  files (move_file w src dst id c) src id = None.
Proof.
  unfold move_file. rewrite files_put_file, ustr_eqb_refl.
  destruct src; reflexivity.
Qed.

Lemma files_move_dst w src dst id c :
  qstate_eqb dst src = false -> files (move_file w src dst id c) dst id = Some c.
Proof.
  intros Hd. unfold move_file. rewrite files_put_file, Hd. simpl andb.
  rewrite files_put_file, ustr_eqb_refl. destruct dst; reflexivity.
Qed.

(** The queue files after a launch: the move, if the spec was pending;
    creating the tmux session does not touch them. *)
Lemma launch_files w id mo :
  files (fst (_launch_task w id mo))
  = match files w Pending id with
    | Some c => files (move_file w Pending InProgress id c)
    | None => files w
    end.
Proof.
  unfold _launch_task.
  destruct (files w Pending id) as [c|] eqn:Ep; cbv beta iota zeta.
  - unfold tmux_new_session.
    repeat match goal with |- context [if ?b then _ else _] => destruct b end;
      reflexivity.
  - destruct (files w InProgress id) as [c|]; [|reflexivity].
    unfold tmux_new_session.
    repeat match goal with |- context [if ?b then _ else _] => destruct b end;
      reflexivity.
Qed.

Lemma launch_success_inv w id mo sid agent model :
  snd (_launch_task w id mo) = Launched sid agent model ->
  exists c,
    files (fst (_launch_task w id mo)) Pending id = None
    /\ files (fst (_launch_task w id mo)) InProgress id = Some c
    /\ is_empty (or_empty (_extract_field c (u "Agent"))) = false
    /\ builds_launch_command (or_empty (_extract_field c (u "Agent"))) = true
    /\ In (_safe_tmux_session_name (_derive_session_id id))
          (tmux_sessions (fst (_launch_task w id mo))).
Proof.
  intros H. rewrite launch_files.
  unfold _launch_task in *.
  destruct (files w Pending id) as [c|] eqn:Ep; cbv beta iota zeta in *.
  - exists c.
    destruct (is_empty (or_empty (_extract_field c (u "Agent")))) eqn:Ea;
      [discriminate H|].
    destruct (builds_launch_command (or_empty (_extract_field c (u "Agent")))) eqn:Eb;
      [|discriminate H].
    unfold tmux_new_session in *.
    destruct (existsb _ _) eqn:Et; [discriminate H|].
    split; [apply files_move_src|]. split; [apply files_move_dst; reflexivity|].
    split; [auto|]. split; [auto|]. simpl. now left.
  - destruct (files w InProgress id) as [c|] eqn:Ei; [|discriminate H].
    exists c.
    destruct (is_empty (or_empty (_extract_field c (u "Agent")))) eqn:Ea;
      [discriminate H|].
    destruct (builds_launch_command (or_empty (_extract_field c (u "Agent")))) eqn:Eb;
      [|discriminate H].
    unfold tmux_new_session in *.
    destruct (existsb _ _) eqn:Et; [discriminate H|].
    split; [auto|]. split; [auto|].
    split; [auto|]. split; [auto|]. simpl. now left.
Qed.

(** A launch of a spec that is only in in-progress, whose agent is set and
    known, while its tmux session exists, fails with the tmux error. *)
Lemma relaunch_live_session w id mo c :
  files w Pending id = None -> files w InProgress id = Some c ->
  is_empty (or_empty (_extract_field c (u "Agent"))) = false ->
  builds_launch_command (or_empty (_extract_field c (u "Agent"))) = true ->
  In (_safe_tmux_session_name (_derive_session_id id)) (tmux_sessions w) ->
  _launch_task w id mo
  = (w, LaunchError 500 (u "duplicate session: "
                          ++ _safe_tmux_session_name (_derive_session_id id))).
Proof.
  intros Ep Ei Ea Eb Hin. unfold _launch_task. rewrite Ep. cbv beta iota zeta.
  rewrite Ei. cbv beta iota zeta. rewrite Ea, Eb. simpl negb. cbv iota.
  unfold tmux_new_session.
  replace (existsb _ (tmux_sessions w)) with true; [reflexivity|].
  symmetry. apply existsb_exists. eexists. split; [exact Hin|apply ustr_eqb_refl].
Qed.

(** C5 (as the code has it): launch moves a pending spec to in-progress;
    a spec that is not pending keeps its place, and one that is only in
    in-progress is launched again (a new tmux session is requested), so a
    second launch right after a successful one leaves the task in
    in-progress but fails with the multiplexer's duplicate-session error
    (HTTP 500); a spec in neither directory gives not-found (HTTP 404). *)
Theorem launch_moves_then_relaunches :
  (forall w id mo c, files w Pending id = Some c ->
     files (fst (_launch_task w id mo)) InProgress id = Some c
     /\ files (fst (_launch_task w id mo)) Pending id = None)
  /\ (forall w id mo, files w Pending id = None ->
        files (fst (_launch_task w id mo)) = files w)
  /\ (forall w id mo, files w Pending id = None -> files w InProgress id = None ->
        _launch_task w id mo = (w, LaunchError 404 (u "Task not found: " ++ id)))
  /\ (forall w id mo mo' sid agent model,
        snd (_launch_task w id mo) = Launched sid agent model ->
        _launch_task (fst (_launch_task w id mo)) id mo'
        = (fst (_launch_task w id mo),
           LaunchError 500 (u "duplicate session: "
                             ++ _safe_tmux_session_name (_derive_session_id id)))
        /\ exists c, files (fst (_launch_task w id mo)) InProgress id = Some c
                     /\ files (fst (_launch_task w id mo)) Pending id = None).
Proof.
  split; [|split; [|split]].
  - intros w id mo c Ep. rewrite launch_files, Ep.
    split; [apply files_move_dst; reflexivity|apply files_move_src].
  - intros w id mo Ep. now rewrite launch_files, Ep.
  - intros w id mo Ep Ei. unfold _launch_task. rewrite Ep. cbv beta iota zeta.
    now rewrite Ei.
  - intros w id mo mo' sid agent model H.
    destruct (launch_success_inv w id mo sid agent model H)
      as (c & Ep & Ei & Ea & Eb & Hin).
    split; [exact (relaunch_live_session _ id mo' c Ep Ei Ea Eb Hin)|].
    exists c. split; assumption.
Qed.

(** C5 as stated fails: the first launch succeeds, the immediate second one
    returns an error. *)
Lemma second_launch_errors :
  snd (_launch_task (demo_queue demo_spec) demo_task_id None)
    = Launched (u "task-20240101-120000") (u "codex") (u "o3")
  /\ snd (_launch_task (fst (_launch_task (demo_queue demo_spec) demo_task_id None))
                       demo_task_id None)
     = LaunchError 500 (u "duplicate session: task-20240101-120000").
Proof. split; vm_compute; reflexivity. Qed.

(** C9: when launch fails after finding the spec in pending (missing or
    unknown agent, failed session creation), the spec has been moved to
    in-progress and stays there. *)
Theorem launch_error_keeps_move :
  forall w id mo c code msg,
    files w Pending id = Some c ->
    snd (_launch_task w id mo) = LaunchError code msg ->
    files (fst (_launch_task w id mo)) InProgress id = Some c
    /\ files (fst (_launch_task w id mo)) Pending id = None.
Proof.
  intros w id mo c code msg Ep _. rewrite launch_files, Ep.
  split; [apply files_move_dst; reflexivity|apply files_move_src].
Qed.

Lemma launch_error_keeps_move_witness :
  files (demo_queue demo_spec_no_agent) Pending demo_task_id = Some demo_spec_no_agent
  /\ snd (_launch_task (demo_queue demo_spec_no_agent) demo_task_id None)
     = LaunchError 400 (u "Agent not found in task spec")
  /\ files (fst (_launch_task (demo_queue demo_spec_no_agent) demo_task_id None))
       InProgress demo_task_id = Some demo_spec_no_agent.
Proof.
  split; [vm_compute; reflexivity|]. split; [vm_compute; reflexivity|].
  apply (proj1 (launch_error_keeps_move (demo_queue demo_spec_no_agent) demo_task_id None
                  demo_spec_no_agent 400 (u "Agent not found in task spec")
                  ltac:(vm_compute; reflexivity) ltac:(vm_compute; reflexivity))).
Defined.

Lemma qstate_eqb_true a b : qstate_eqb a b = true -> a = b.
Proof. destruct a, b; simpl; congruence. Qed.

Lemma find_task_some w id states q c :
  find_task w id states = Some (q, c) -> files w q id = Some c.
Proof.
  induction states as [|q' qs IH]; simpl; [discriminate|].
  destruct (files w q' id) eqn:E; [intros H; inversion H; subst; exact E|exact IH].
Qed.

Lemma re_sub_field_go_absent label repl n s :
  contains label s = false -> re_sub_field_go label repl n s = s.
Proof.
  revert s. induction n as [|n IH]; intros s H; [reflexivity|].
  destruct s as [|c s']; [reflexivity|]. simpl in H.
  apply Bool.orb_false_iff in H. destruct H as [Hs Hc].
  cbn [re_sub_field_go]. rewrite Hs. simpl andb. cbv iota.
  now rewrite IH.
Qed.

Lemma re_sub_field_absent label repl s :
  contains label s = false -> re_sub_field label repl s = s.
Proof. apply re_sub_field_go_absent. Qed.

(** C7 (code bug): in the ID substitution the label group ends in
    [\s*], which runs over the line break, so an empty [**ID:**] field
    takes the next line's first token instead: the source's
    [**Agent:** codex] line becomes the new id followed by [ codex], and
    the copy has no Agent field although the source has one.
    ([_extract_field] reads a field with [[ \t]*], within its line.) *)
Lemma duplicate_loses_agent :
  _extract_field demo_spec_blank_id (u "Agent") = Some (u "codex")
  /\ files (fst (api_duplicate_task (demo_queue demo_spec_blank_id) demo_task_id
                   (u "task-20240102-090000-fix-login-copy") (u "2024-01-02")))
       Pending (u "task-20240102-090000-fix-login-copy")
     = Some (u "# Task: Fix login" ++ [10%N] ++ u "**ID:**" ++ [10%N]
             ++ u "task-20240102-090000-fix-login-copy codex" ++ [10%N])
  /\ option_map (fun c => _extract_field c (u "Agent"))
       (files (fst (api_duplicate_task (demo_queue demo_spec_blank_id) demo_task_id
                      (u "task-20240102-090000-fix-login-copy") (u "2024-01-02")))
              Pending (u "task-20240102-090000-fix-login-copy"))
     = Some None.
Proof. split; [|split]; vm_compute; reflexivity. Qed.

Lemma ustr_ltb_asym a b : ustr_ltb a b = true -> ustr_ltb b a = false.
Proof.
  revert b. induction a as [|x a IH]; intros [|y b]; simpl; auto; try discriminate.
  intros H.
  destruct (N.ltb_spec x y); destruct (N.eqb_spec x y);
    destruct (N.ltb_spec y x); destruct (N.eqb_spec y x);
    simpl in *; try lia; try discriminate; auto.
Qed.

Lemma key_ltb_asym k1 k2 : key_ltb k1 k2 = true -> key_ltb k2 k1 = false.
Proof.
  destruct k1 as [[[p1 g1] n1] i1], k2 as [[[p2 g2] n2] i2]. unfold key_ltb.
  intros H.
  destruct (Nat.ltb_spec p1 p2); destruct (Nat.eqb_spec p1 p2);
    destruct (Nat.ltb_spec p2 p1); destruct (Nat.eqb_spec p2 p1);
    simpl in *; try lia; try discriminate; auto.
  destruct (ustr_ltb g1 g2) eqn:L1.
  - rewrite (ustr_ltb_asym _ _ L1). simpl.
    destruct (ustr_eqb g2 g1) eqn:E; [|reflexivity].
    apply ustr_eqb_true in E. subst. rewrite (ustr_ltb_asym _ _ L1) in L1. discriminate.
  - simpl in H. apply andb_prop in H. destruct H as [E H].
    apply ustr_eqb_true in E. subst. rewrite L1, ustr_eqb_refl. simpl.
    destruct (N.ltb_spec n1 n2); destruct (N.eqb_spec n1 n2);
      destruct (N.ltb_spec n2 n1); destruct (N.eqb_spec n2 n1);
      simpl in *; try lia; try discriminate; auto using ustr_ltb_asym.
Qed.

Section SortFacts.

Variable upper_cp : uchar -> ustr.
Variable az_ignorecase : uchar -> bool.

Let key := pending_sort_key upper_cp az_ignorecase.
Let R (a b : task_item) : Prop := key_leb (key a) (key b) = true.
Let ins := insert_by_key upper_cp az_ignorecase.

Lemma insert_by_key_perm x l : Permutation (ins x l) (x :: l).
Proof.
  induction l as [|y l IH]; simpl; [reflexivity|].
  unfold ins in *; simpl.
  destruct (key_ltb _ _); [reflexivity|].
  eapply perm_trans; [apply perm_skip, IH|apply perm_swap].
Qed.

Lemma insert_by_key_hdrel y x l :
  HdRel R y l -> R y x -> HdRel R y (ins x l).
Proof.
  intros Hh Hyx. destruct l as [|z l]; unfold ins; simpl.
  - constructor. exact Hyx.
  - destruct (key_ltb _ _); constructor; [exact Hyx|].
    inversion Hh; assumption.
Qed.

Lemma insert_by_key_sorted x l : Sorted R l -> Sorted R (ins x l).
Proof.
  induction l as [|y l IH]; intros Hs; unfold ins; simpl.
  - repeat constructor.
  - destruct (key_ltb (pending_sort_key upper_cp az_ignorecase x)
                      (pending_sort_key upper_cp az_ignorecase y)) eqn:Lt.
    + constructor; [exact Hs|]. constructor. unfold R, key_leb, key.
      now rewrite (key_ltb_asym _ _ Lt).
    + inversion Hs as [|? ? Hs' Hh]; subst.
      constructor; [exact (IH Hs')|].
      apply insert_by_key_hdrel; [exact Hh|].
      unfold R, key_leb, key. now rewrite Lt.
Qed.

Lemma fold_insert_perm items acc :
  Permutation (fold_left (fun acc x => ins x acc) items acc) (items ++ acc).
Proof.
  revert acc. induction items as [|x items IH]; intros acc; simpl; [reflexivity|].
  eapply perm_trans; [apply IH|].
  eapply perm_trans; [apply Permutation_app_head, insert_by_key_perm|].
  apply Permutation_sym, Permutation_middle.
Qed.

Lemma fold_insert_sorted items acc :
  Sorted R acc -> Sorted R (fold_left (fun acc x => ins x acc) items acc).
Proof.
  revert acc. induction items as [|x items IH]; intros acc Hs; simpl; [exact Hs|].
  apply IH, insert_by_key_sorted, Hs.
Qed.

End SortFacts.

Lemma py_upper_ascii_agree up s :
  (forall c, (c < 128)%N -> up c = upper_ascii c) -> ascii_str s = true ->
  py_upper up s = py_upper upper_ascii s.
Proof.
  intros Hup. induction s as [|c s IH]; simpl; [reflexivity|].
  intros H. apply andb_prop in H. destruct H as [Hc Hs].
  apply N.ltb_lt in Hc. unfold py_upper in *. simpl. rewrite Hup by exact Hc.
  now rewrite IH.
Qed.

Lemma group_search_ascii_agree az s :
  (forall c, (c < 128)%N -> az c = az_ascii c) -> ascii_str s = true ->
  group_search az s = group_search az_ascii s.
Proof.
  intros Haz. induction s as [|c s IH]; simpl; [reflexivity|].
  intros H. apply andb_prop in H. destruct H as [_ Hs].
  rewrite (IH Hs). destruct s as [|g rest]; [reflexivity|].
  simpl in Hs. apply andb_prop in Hs. destruct Hs as [Hg _]. apply N.ltb_lt in Hg.
  rewrite (Haz g Hg). reflexivity.
Qed.

Lemma group_search_in az s g ds : group_search az s = Some (g, ds) -> In g s.
Proof.
  induction s as [|c s IH]; simpl; [discriminate|]. intros H.
  destruct ((c =? 45)%N).
  - destruct s as [|g' rest]; [simpl in H; discriminate|].
    destruct (az g' && _ && _) eqn:E.
    + inversion H; subst. right; left; reflexivity.
    + right. apply IH. exact H.
  - right. apply IH. exact H.
Qed.

Lemma pending_sort_key_ascii up az it :
  (forall c, (c < 128)%N -> up c = upper_ascii c) ->
  (forall c, (c < 128)%N -> az c = az_ascii c) ->
  ascii_str (item_id it) = true -> ascii_str (item_priority it) = true ->
  pending_sort_key up az it = pending_sort_key upper_ascii az_ascii it.
Proof.
  intros Hup Haz Hi Hp. unfold pending_sort_key, priority_sort_key.
  rewrite (py_upper_ascii_agree up _ Hup Hp), (group_search_ascii_agree az _ Haz Hi).
  destruct (group_search az_ascii (item_id it)) as [[g ds]|] eqn:E; [|reflexivity].
  rewrite (py_upper_ascii_agree up [g] Hup); [reflexivity|].
  apply group_search_in in E. unfold ascii_str in *. simpl.
  rewrite forallb_forall in Hi. now rewrite (Hi g E).
Qed.

Lemma insert_by_key_ext up az up' az' x l :
  (forall y, In y (x :: l) -> pending_sort_key up az y = pending_sort_key up' az' y) ->
  insert_by_key up az x l = insert_by_key up' az' x l.
Proof.
  induction l as [|y l IH]; intros H; simpl; [reflexivity|].
  rewrite (H x (or_introl eq_refl)), (H y (or_intror (or_introl eq_refl))).
  rewrite IH; [reflexivity|].
  intros z [->|Hz]; apply H; simpl; auto.
Qed.

Lemma fold_insert_ext up az up' az' items acc :
  (forall y, In y (items ++ acc) -> pending_sort_key up az y = pending_sort_key up' az' y) ->
  fold_left (fun acc x => insert_by_key up az x acc) items acc
  = fold_left (fun acc x => insert_by_key up' az' x acc) items acc.
Proof.
  revert acc. induction items as [|x items IH]; intros acc H; simpl; [reflexivity|].
  rewrite (insert_by_key_ext up az up' az' x acc).
  - apply IH. intros y Hy. apply H. apply in_app_or in Hy. destruct Hy as [Hy|Hy].
    + simpl. right. apply in_or_app. left. exact Hy.
    + apply (Permutation_in _ (insert_by_key_perm up' az' x acc)) in Hy.
      destruct Hy as [->|Hy]; [left; reflexivity|right; apply in_or_app; right; exact Hy].
  - intros y [->|Hy]; apply H; [left; reflexivity|right; apply in_or_app; right; exact Hy].
Qed.

Lemma sort_pending_ext up az up' az' items :
  (forall y, In y items -> pending_sort_key up az y = pending_sort_key up' az' y) ->
  sort_pending up az items = sort_pending up' az' items.
Proof.
  intros H. apply fold_insert_ext. rewrite app_nil_r. exact H.
Qed.

(** C8: the pending listing is a permutation of the pending tasks, ordered
    by [key_leb] on [pending_sort_key]: priority rank first (0..3 from the
    first P0..P3 found in the upper-cased priority, 99 for none), then the
    group letter, then its number ([Z] and 9999 without a
    [-<Letter><digits>-] in the id), then the id; with Unicode tables that
    agree with ASCII on ASCII, the tasks A01 (P1), A02 (P0) and H01 (P1)
    come out as A02, A01, H01. *)
Theorem pending_sort_order :
  forall upper_cp az_ignorecase,
  (forall items,
     Permutation (sort_pending upper_cp az_ignorecase items) items
     /\ Sorted (fun a b => key_leb (pending_sort_key upper_cp az_ignorecase a)
                                   (pending_sort_key upper_cp az_ignorecase b) = true)
               (sort_pending upper_cp az_ignorecase items))
  /\ (forall p1 g1 n1 i1 p2 g2 n2 i2,
        key_leb (p1, g1, n1, i1) (p2, g2, n2, i2) = true ->
        (p1 <= p2)%nat
        /\ (p1 = p2 -> ustr_ltb g2 g1 = false
            /\ (g1 = g2 -> (n1 <= n2)%N /\ (n1 = n2 -> ustr_ltb i2 i1 = false))))
  /\ (forall it, group_search az_ignorecase (item_id it) = None ->
        pending_sort_key upper_cp az_ignorecase it
        = (priority_sort_key upper_cp it, u "Z", 9999%N, item_id it))
  /\ (forall it g ds, group_search az_ignorecase (item_id it) = Some (g, ds) ->
        pending_sort_key upper_cp az_ignorecase it
        = (priority_sort_key upper_cp it, py_upper upper_cp [g], digits_value ds, item_id it))
  /\ (forall it i, (i <= 3)%nat ->
        priority_matches i (py_upper upper_cp (item_priority it)) = true ->
        (priority_sort_key upper_cp it <= i)%nat)
  /\ (forall it, (forall i, (i <= 3)%nat ->
          priority_matches i (py_upper upper_cp (item_priority it)) = false) ->
        priority_sort_key upper_cp it = 99%nat)
  /\ ((forall c, (c < 128)%N -> upper_cp c = upper_ascii c) ->
      (forall c, (c < 128)%N -> az_ignorecase c = az_ascii c) ->
      sort_pending upper_cp az_ignorecase [item_A01; item_A02; item_H01]
      = [item_A02; item_A01; item_H01]).
Proof.
  intros up az. split; [|split; [|split; [|split; [|split; [|split]]]]].
  - intros items. split.
    + unfold sort_pending. rewrite <- (app_nil_r items) at 2.
      apply fold_insert_perm.
    + apply fold_insert_sorted. constructor.
  - intros p1 g1 n1 i1 p2 g2 n2 i2 H.
    unfold key_leb, key_ltb in H. apply Bool.negb_true_iff in H.
    apply Bool.orb_false_iff in H. destruct H as [Hp Hr].
    apply Nat.ltb_ge in Hp. split; [exact Hp|]. intros <-.
    rewrite Nat.eqb_refl in Hr. simpl in Hr.
    apply Bool.orb_false_iff in Hr. destruct Hr as [Hg Hr].
    split; [exact Hg|]. intros <-. rewrite ustr_eqb_refl in Hr. simpl in Hr.
    apply Bool.orb_false_iff in Hr. destruct Hr as [Hn Hr].
    apply N.ltb_ge in Hn. split; [exact Hn|]. intros <-.
    rewrite N.eqb_refl in Hr. exact Hr.
  - intros it E. unfold pending_sort_key. now rewrite E.
  - intros it g ds E. unfold pending_sort_key. now rewrite E.
  - intros it i Hi Hm. unfold priority_sort_key.
    destruct i as [|[|[|[|i]]]]; [| | | |lia]; rewrite ?Hm;
      repeat match goal with
             | |- context [if ?b then _ else _] => destruct b
             end; lia.
  - intros it H. unfold priority_sort_key.
    rewrite (H 0%nat), (H 1%nat), (H 2%nat), (H 3%nat) by lia. reflexivity.
  - intros Hup Haz.
    rewrite (sort_pending_ext up az upper_ascii az_ascii); [vm_compute; reflexivity|].
    intros y Hy. simpl in Hy.
    destruct Hy as [<-|[<-|[<-|[]]]];
      apply pending_sort_key_ascii; auto; reflexivity.
Qed.

Lemma pending_sort_order_witness :
  sort_pending upper_ascii az_ascii [item_A01; item_A02; item_H01]
  = [item_A02; item_A01; item_H01].
Proof.
  destruct (pending_sort_order upper_ascii az_ascii) as (_ & _ & _ & _ & _ & _ & H).
  apply H; intros c _; reflexivity.
Defined.

(** ** Further properties of the code *)

(** *** Strings: stripping, splitting, joining *)

Lemma drop_while_all p a x :
  Forall (fun c => p c = true) a -> drop_while p (a ++ x) = drop_while p x.
Proof. induction 1 as [|c a Hc _ IH]; simpl; [reflexivity|]. now rewrite Hc. Qed.

Lemma drop_while_all_nil p a :
  Forall (fun c => p c = true) a -> drop_while p a = [].
Proof. intros H. rewrite <- (app_nil_r a). rewrite drop_while_all by exact H. reflexivity. Qed.

Lemma drop_while_head p c s : p c = false -> drop_while p (c :: s) = c :: s.
Proof. simpl. intros ->. reflexivity. Qed.

Lemma drop_while_suffix p s : exists k, drop_while p s = skipn k s.
Proof.
  induction s as [|c s [k IH]]; simpl; [exists 0%nat; reflexivity|].
  destruct (p c); [exists (S k); exact IH|exists 0%nat; reflexivity].
Qed.

Lemma drop_while_first p s :
  match drop_while p s with [] => True | c :: _ => p c = false end.
Proof.
  induction s as [|c s IH]; simpl; [exact I|].
  destruct (p c) eqn:E; [exact IH|exact E].
Qed.

Lemma take_drop_while p s : take_while p s ++ drop_while p s = s.
Proof.
  induction s as [|c s IH]; simpl; [reflexivity|].
  destruct (p c); simpl; [now rewrite IH|reflexivity].
Qed.

Lemma take_while_all p s : Forall (fun c => p c = true) (take_while p s).
Proof.
  induction s as [|c s IH]; simpl; [constructor|].
  destruct (p c) eqn:E; constructor; auto.
Qed.

Lemma take_while_app_stop p a c s :
  Forall (fun x => p x = true) a -> p c = false -> take_while p (a ++ c :: s) = a.
Proof.
  intros Ha Hc. induction Ha as [|x a Hx _ IH]; simpl; [now rewrite Hc|].
  now rewrite Hx, IH.
Qed.

Lemma drop_while_app_stop p a c s :
  Forall (fun x => p x = true) a -> p c = false -> drop_while p (a ++ c :: s) = c :: s.
Proof.
  intros Ha Hc. rewrite drop_while_all by exact Ha. simpl. now rewrite Hc.
Qed.

Lemma take_while_all_id p a : Forall (fun x => p x = true) a -> take_while p a = a.
Proof. induction 1 as [|x a Hx _ IH]; simpl; [reflexivity|]. now rewrite Hx, IH. Qed.

Lemma py_strip_id s : no_blank_ends s -> py_strip s = s.
Proof.
  unfold py_strip. destruct s as [|c s']; [reflexivity|].
  intros [Hc (t & z & E & Hz)]. rewrite drop_while_head by exact Hc.
  rewrite E, rev_app_distr. simpl. rewrite Hz. simpl.
  rewrite rev_involutive. reflexivity.
Qed.

Lemma skipn_rev_firstn {A} k (l : list A) :
  rev (skipn k (rev l)) = firstn (List.length l - k) l.
Proof. rewrite skipn_rev, rev_involutive. reflexivity. Qed.

Lemma py_strip_no_blank_ends s : no_blank_ends (py_strip s).
Proof.
  unfold py_strip.
  pose proof (drop_while_first is_space s) as Ht.
  remember (drop_while is_space s) as t eqn:Et. clear Et.
  pose proof (drop_while_first is_space (rev t)) as Hr.
  destruct (drop_while_suffix is_space (rev t)) as [k Ek].
  rewrite Ek in *.
  assert (F : rev (skipn k (rev t)) = firstn (List.length t - k) t)
    by apply skipn_rev_firstn.
  destruct (skipn k (rev t)) as [|z r] eqn:Es; [exact I|].
  simpl in F |- *.
  destruct t as [|c t'].
  - rewrite firstn_nil in F. destruct (rev r); discriminate.
  - destruct (List.length (c :: t') - k)%nat as [|m].
    + simpl in F. destruct (rev r); discriminate.
    + simpl in F. rewrite F. split; [exact Ht|].
      exists (rev r), z. split; [symmetry; exact F|exact Hr].
Qed.

Lemma py_strip_idem s : py_strip (py_strip s) = py_strip s.
Proof. apply py_strip_id, py_strip_no_blank_ends. Qed.

Lemma py_strip_slice s : exists a b, s = a ++ py_strip s ++ b.
Proof.
  unfold py_strip.
  destruct (drop_while_suffix is_space s) as [k1 E1].
  destruct (drop_while_suffix is_space (rev (drop_while is_space s))) as [k2 E2].
  rewrite E2, skipn_rev_firstn, E1.
  exists (firstn k1 s).
  exists (skipn (List.length (skipn k1 s) - k2) (skipn k1 s)).
  rewrite firstn_skipn, firstn_skipn. reflexivity.
Qed.

Lemma py_strip_pad a s b :
  Forall (fun c => is_space c = true) a -> Forall (fun c => is_space c = true) b ->
  py_strip (a ++ s ++ b) = py_strip s.
Proof.
  intros Ha Hb. unfold py_strip. rewrite drop_while_all by exact Ha.
  destruct (existsb (fun c => negb (is_space c)) s) eqn:Ex.
  - assert (D : forall s', existsb (fun c => negb (is_space c)) s' = true ->
              drop_while is_space (s' ++ b) = drop_while is_space s' ++ b).
    { induction s' as [|c s' IH]; simpl; [discriminate|].
      destruct (is_space c); simpl; [exact IH|reflexivity]. }
    rewrite (D s Ex), rev_app_distr, drop_while_all by (apply Forall_rev; exact Hb).
    reflexivity.
  - assert (Hs : Forall (fun c => is_space c = true) s).
    { apply Forall_forall. intros c Hc.
      destruct (is_space c) eqn:E; [reflexivity|].
      assert (existsb (fun c => negb (is_space c)) s = true)
        by (apply existsb_exists; exists c; now rewrite E).
      congruence. }
    assert (Hsb : Forall (fun c => is_space c = true) (s ++ b))
      by (apply Forall_app; split; assumption).
    rewrite (drop_while_all_nil _ _ Hsb), (drop_while_all_nil _ _ Hs). reflexivity.
Qed.

Lemma split_on_nonempty sep s : split_on sep s <> [].
Proof.
  destruct s as [|c s]; simpl; [discriminate|].
  destruct ((c =? sep)%N); [discriminate|]. destruct (split_on sep s); discriminate.
Qed.

Lemma split_on_app sep x y :
  Forall (fun c => c <> sep) x -> split_on sep (x ++ sep :: y) = x :: split_on sep y.
Proof.
  induction 1 as [|c x Hc _ IH]; simpl.
  - now rewrite N.eqb_refl.
  - rewrite IH. apply N.eqb_neq in Hc. now rewrite Hc.
Qed.

Lemma split_on_none sep x : Forall (fun c => c <> sep) x -> split_on sep x = [x].
Proof.
  induction 1 as [|c x Hc _ IH]; simpl; [reflexivity|].
  rewrite IH. apply N.eqb_neq in Hc. now rewrite Hc.
Qed.

(** *** _safe_tmux_session_name *)

Lemma safe_name_fixed s :
  Forall (fun c => is_name_char c = true) s -> (List.length s <= 64)%nat ->
  _safe_tmux_session_name s = s.
Proof.
  intros Hs Hl. unfold _safe_tmux_session_name.
  rewrite length_map.
  replace (64 <? List.length s)%nat with false by (symmetry; apply Nat.ltb_ge; exact Hl).
  induction Hs as [|c s Hc _ IH]; simpl; [reflexivity|]. rewrite Hc.
  f_equal. apply IH. simpl in Hl. lia.
Qed.

(** *** _derive_session_id *)

Lemma split_dash_split_on s : split_dash s = split_on 45%N s.
Proof. induction s as [|c s IH]; simpl; [reflexivity|]. now rewrite IH. Qed.

Lemma split_dash_nonempty s : split_dash s <> [].
Proof.
  destruct s as [|c s]; simpl; [discriminate|].
  destruct ((c =? 45)%N); [discriminate|]. destruct (split_dash s); discriminate.
Qed.

Lemma join_dash_cons p ps : ps <> [] -> join_dash (p :: ps) = p ++ [45%N] ++ join_dash ps.
Proof. destruct ps; [contradiction|reflexivity]. Qed.

Lemma join_split_dash s : join_dash (split_dash s) = s.
Proof.
  induction s as [|c s IH]; simpl; [reflexivity|].
  pose proof (split_dash_nonempty s) as Hn.
  destruct ((c =? 45)%N) eqn:E.
  - apply N.eqb_eq in E. subst. rewrite join_dash_cons by exact Hn. simpl. now rewrite IH.
  - destruct (split_dash s) as [|h t]; [contradiction|].
    destruct t as [|h2 t]; simpl in *; now rewrite IH.
Qed.

Lemma split_dash_parts s : Forall (fun p => ~ In 45%N p) (split_dash s).
Proof.
  induction s as [|c s IH]; simpl; [repeat constructor; simpl; tauto|].
  destruct ((c =? 45)%N) eqn:E.
  - constructor; [simpl; tauto|exact IH].
  - destruct (split_dash s) as [|h t]; [repeat constructor; simpl; intros [H|[]];
      subst; rewrite N.eqb_refl in E; discriminate|].
    inversion IH as [|? ? Hh Ht]; subst. constructor; [|exact Ht].
    simpl. intros [H|H]; [subst; rewrite N.eqb_refl in E; discriminate|contradiction].
Qed.

Lemma split_join_dash ps :
  ps <> [] -> Forall (fun p => ~ In 45%N p) ps -> split_dash (join_dash ps) = ps.
Proof.
  rewrite split_dash_split_on.
  induction ps as [|p ps IH]; intros Hne Hf; [contradiction|].
  inversion Hf as [|? ? Hp Hps]; subst.
  assert (Hp' : Forall (fun c => c <> 45%N) p)
    by (apply Forall_forall; intros c Hc E; subst; contradiction).
  destruct ps as [|p2 ps].
  - simpl. apply split_on_none. exact Hp'.
  - rewrite join_dash_cons by discriminate. simpl.
    rewrite split_on_app by exact Hp'. f_equal. apply IH; [discriminate|exact Hps].
Qed.

Lemma length_split_dash s : List.length (split_dash s) = S (count_occ N.eq_dec s 45%N).
Proof.
  induction s as [|c s IH]; simpl; [reflexivity|].
  pose proof (split_dash_nonempty s) as Hn.
  destruct ((c =? 45)%N) eqn:E.
  - apply N.eqb_eq in E. subst. destruct (N.eq_dec 45 45); [|contradiction].
    simpl. now rewrite IH.
  - apply N.eqb_neq in E. destruct (N.eq_dec c 45); [contradiction|].
    destruct (split_dash s) as [|h t]; [contradiction|]. simpl in *. exact IH.
Qed.

Lemma count_join_dash ps :
  ps <> [] -> Forall (fun p => ~ In 45%N p) ps ->
  count_occ N.eq_dec (join_dash ps) 45%N = pred (List.length ps).
Proof.
  intros Hne Hf. rewrite <- (split_join_dash ps Hne Hf) at 2.
  rewrite length_split_dash. reflexivity.
Qed.

Lemma join_dash_firstn_prefix n ps :
  (1 <= n)%nat ->
  exists rest, join_dash ps = join_dash (firstn n ps) ++ rest
               /\ (rest = [] \/ exists r, rest = 45%N :: r).
Proof.
  revert ps. induction n as [|m IH]; intros ps Hn; [lia|].
  destruct ps as [|p ps']; [exists []; split; [reflexivity|left; reflexivity]|].
  destruct ps' as [|p2 ps''].
  - exists []. simpl. rewrite firstn_nil. split; [now rewrite app_nil_r|left; reflexivity].
  - rewrite join_dash_cons by discriminate. destruct m as [|m'].
    + exists (45%N :: join_dash (p2 :: ps'')). simpl. split; [reflexivity|right; eauto].
    + destruct (IH (p2 :: ps'') ltac:(lia)) as (rest & E & Hr).
      exists rest. split; [|exact Hr].
      change (firstn (S (S m')) (p :: p2 :: ps'')) with (p :: firstn (S m') (p2 :: ps'')).
      rewrite (join_dash_cons p (firstn (S m') (p2 :: ps''))) by (simpl; discriminate).
      rewrite E. simpl. now rewrite <- app_assoc.
Qed.

Lemma Forall_firstn_of {A} (P : A -> Prop) n l : Forall P l -> Forall P (firstn n l).
Proof.
  intros H. rewrite <- (firstn_skipn n l) in H. apply Forall_app in H. apply H.
Qed.

(** X: [_safe_tmux_session_name] maps the id position by position over
    its first 64 characters: a character of the [A-Za-z0-9_-] class is
    kept and any other character becomes '-'. So it only produces
    characters of that class, its length is the id's length capped at 64,
    and applying it to its own output changes nothing. *)
Theorem safe_tmux_session_name_shape (session_id : ustr) :
  (forall i, (i < 64)%nat ->
     nth_error (_safe_tmux_session_name session_id) i
     = option_map (fun c => if is_name_char c then c else 45%N) (nth_error session_id i))
  /\ Forall (fun c => is_name_char c = true) (_safe_tmux_session_name session_id)
  /\ List.length (_safe_tmux_session_name session_id) = Nat.min (List.length session_id) 64
  /\ _safe_tmux_session_name (_safe_tmux_session_name session_id)
     = _safe_tmux_session_name session_id.
Proof.
  assert (Hm : Forall (fun c => is_name_char c = true)
                 (map (fun c => if is_name_char c then c else 45%N) session_id)).
  { apply Forall_forall. intros c Hc. apply in_map_iff in Hc as (x & <- & _).
    destruct (is_name_char x) eqn:E; [exact E|reflexivity]. }
  assert (Hf : Forall (fun c => is_name_char c = true) (_safe_tmux_session_name session_id)).
  { unfold _safe_tmux_session_name.
    destruct (64 <? _)%nat; [apply Forall_firstn_of|]; exact Hm. }
  assert (Hl : List.length (_safe_tmux_session_name session_id)
               = Nat.min (List.length session_id) 64).
  { unfold _safe_tmux_session_name. rewrite length_map.
    destruct (64 <? List.length session_id)%nat eqn:E.
    - apply Nat.ltb_lt in E. rewrite length_firstn, length_map. lia.
    - apply Nat.ltb_ge in E. rewrite length_map. lia. }
  split.
  { intros i Hi. unfold _safe_tmux_session_name.
    destruct (64 <? _)%nat; [rewrite nth_error_firstn, (proj2 (Nat.ltb_lt i 64) Hi)|];
      apply nth_error_map. }
  split; [exact Hf|]. split; [exact Hl|].
  apply safe_name_fixed; [exact Hf|]. rewrite Hl. lia.
Qed.

(** X: [_derive_session_id] keeps the id up to (not including) its third
    '-': the result is a prefix of the id followed by nothing or by a '-',
    it holds as many '-' as the id up to a maximum of two, and deriving
    again from a derived id gives it back. *)
Theorem derive_session_id_prefix (task_id : ustr) :
  (exists rest, task_id = _derive_session_id task_id ++ rest
                /\ (rest = [] \/ exists r, rest = 45%N :: r))
  /\ count_occ N.eq_dec (_derive_session_id task_id) 45%N
     = Nat.min (count_occ N.eq_dec task_id 45%N) 2
  /\ _derive_session_id (_derive_session_id task_id) = _derive_session_id task_id.
Proof.
  pose proof (length_split_dash task_id) as Hlen.
  pose proof (split_dash_parts task_id) as Hparts.
  pose proof (join_split_dash task_id) as Hjoin.
  unfold _derive_session_id.
  destruct (3 <=? List.length (split_dash task_id))%nat eqn:E.
  - apply Nat.leb_le in E.
    remember (split_dash task_id) as parts eqn:Ep.
    assert (Hf3 : Forall (fun p => ~ In 45%N p) (firstn 3 parts))
      by (apply Forall_firstn_of; exact Hparts).
    assert (Hl3 : List.length (firstn 3 parts) = 3%nat) by (rewrite length_firstn; lia).
    assert (Hne : firstn 3 parts <> []) by (intro Hc; rewrite Hc in Hl3; discriminate).
    split; [|split].
    + destruct (join_dash_firstn_prefix 3 parts ltac:(lia)) as (rest & Er & Hr).
      exists rest. split; [rewrite <- Hjoin at 1; exact Er|exact Hr].
    + rewrite count_join_dash by assumption. rewrite length_firstn.
      lia.
    + rewrite split_join_dash by assumption. rewrite length_firstn.
      replace (Nat.min 3 (List.length parts)) with 3%nat by lia.
      rewrite firstn_firstn. reflexivity.
  - apply Nat.leb_gt in E. split; [|split].
    + exists []. split; [now rewrite app_nil_r|left; reflexivity].
    + lia.
    + rewrite (proj2 (Nat.leb_gt _ _) E). reflexivity.
Qed.

(** *** _normalize_state *)

Lemma state_of_name_not_running t : state_of_name t <> Some Running.
Proof.
  unfold state_of_name.
  repeat match goal with |- context [if ?b then _ else _] => destruct b end;
    discriminate.
Qed.

(** X: [_normalize_state] never yields [running] (the aliases map it to
    [working]), and the name of any state it yields normalizes back to that
    same state, so normalizing twice is the same as normalizing once (the
    lowering agreeing with ASCII lowering on ASCII). *)
Theorem normalize_state_canonical (lower_cp : uchar -> ustr)
    (Hlow : forall c, (c < 128)%N -> lower_cp c = lower_ascii c)
    (raw_state : option ustr) :
  _normalize_state lower_cp raw_state <> Some Running
  /\ forall st, _normalize_state lower_cp raw_state = Some st ->
     _normalize_state lower_cp (Some (status_name st)) = Some st.
Proof.
  split.
  - unfold _normalize_state. destruct raw_state as [s|]; [|discriminate].
    destruct (is_empty s); [discriminate|].
    destruct (is_empty _); [discriminate|]. apply state_of_name_not_running.
  - intros st Hst.
    assert (Hnr : st <> Running).
    { intros ->. revert Hst. unfold _normalize_state. destruct raw_state as [s|];
        [|discriminate]. destruct (is_empty s); [discriminate|].
      destruct (is_empty _); [discriminate|]. apply state_of_name_not_running. }
    rewrite normalize_state_agrees by
      (exact Hlow || (destruct st; vm_compute; reflexivity)).
    destruct st; [contradiction|..]; vm_compute; reflexivity.
Qed.

(** X: [_normalize_state] ignores whitespace around the state: padding a
    state string with blank characters on either side never changes the
    normalized state. *)
Theorem normalize_state_ignores_padding (lower_cp : uchar -> ustr) (a s b : ustr)
    (Ha : Forall (fun c => is_space c = true) a)
    (Hb : Forall (fun c => is_space c = true) b) :
  _normalize_state lower_cp (Some (a ++ s ++ b)) = _normalize_state lower_cp (Some s).
Proof.
  unfold _normalize_state. rewrite (py_strip_pad a s b Ha Hb).
  destruct s as [|c s'].
  - destruct (is_empty (a ++ [] ++ b)); [reflexivity|]. reflexivity.
  - replace (is_empty (a ++ (c :: s') ++ b)) with false
      by (destruct a; reflexivity).
    reflexivity.
Qed.

Lemma normalize_state_ignores_padding_witness :
  _normalize_state lower_ascii (Some (u " " ++ u "Blocked" ++ [10%N]))
  = _normalize_state lower_ascii (Some (u "Blocked")).
Proof. apply normalize_state_ignores_padding; repeat constructor. Defined.

Lemma normalize_state_canonical_witness :
  _normalize_state lower_ascii (Some (u " In-Progress ")) <> Some Running
  /\ _normalize_state lower_ascii (Some (status_name Working)) = Some Working.
Proof.
  destruct (normalize_state_canonical lower_ascii (fun c _ => eq_refl)
              (Some (u " In-Progress "))) as [H1 H2].
  split; [exact H1|]. apply H2. vm_compute. reflexivity.
Defined.

(** *** _detect_agent_type *)

Lemma startswith_app_inv p s : startswith p s = true -> exists r, s = p ++ r.
Proof.
  revert s. induction p as [|c p IH]; intros s H; [exists s; reflexivity|].
  destruct s as [|d s]; [discriminate|]. simpl in H.
  apply andb_prop in H as [Hc H]. apply N.eqb_eq in Hc. subst.
  destruct (IH s H) as [r ->]. exists r. reflexivity.
Qed.

Lemma startswith_app p r : startswith p (p ++ r) = true.
Proof. induction p as [|c p IH]; simpl; [reflexivity|]. now rewrite N.eqb_refl. Qed.

Lemma agent_types_prefix_free c c' s :
  In c AGENT_TYPES -> In c' AGENT_TYPES ->
  startswith c s = true -> startswith c' s = true -> c = c'.
Proof.
  intros Hc Hc' H H'. destruct (startswith_app_inv c s H) as [r ->].
  simpl in Hc, Hc'.
  repeat (destruct Hc as [<-|Hc]); try contradiction;
  repeat (destruct Hc' as [<-|Hc']); try contradiction;
  try reflexivity; simpl in H'; discriminate.
Qed.

(** X: [_detect_agent_type] returns an agent type exactly when the
    lowercased session id starts with it (the four names are prefix-free,
    so the order of the candidates does not matter), and returns
    [unknown] exactly when the id starts with none of them. *)
Theorem detect_agent_type_prefix (lower_cp : uchar -> ustr) (session_id : ustr) :
  (forall c, In c AGENT_TYPES ->
     (_detect_agent_type lower_cp session_id = c
      <-> startswith c (py_lower lower_cp session_id) = true))
  /\ (_detect_agent_type lower_cp session_id = u "unknown"
      <-> forall c, In c AGENT_TYPES -> startswith c (py_lower lower_cp session_id) = false).
Proof.
  unfold _detect_agent_type.
  set (l := py_lower lower_cp session_id).
  assert (Hunk : ~ In (u "unknown") AGENT_TYPES)
    by (simpl; intros H; repeat destruct H as [H|H]; try discriminate; contradiction).
  destruct (find (fun c => startswith c l) AGENT_TYPES) as [c0|] eqn:E.
  - apply find_some in E as [Hin0 Hs0]. split.
    + intros c Hc. split; [intros <-; exact Hs0|].
      intros Hs. exact (agent_types_prefix_free c0 c l Hin0 Hc Hs0 Hs).
    + split; [intros ->; contradiction|].
      intros Hall. rewrite (Hall c0 Hin0) in Hs0. discriminate.
  - pose proof (find_none _ _ E) as Hn. split.
    + intros c Hc. split; [intros <-; contradiction|].
      intros Hs. rewrite (Hn c Hc) in Hs. discriminate.
    + split; [intros _; exact Hn|reflexivity].
Qed.

(** *** _normalize_priority *)

Lemma search_P_digit_range is_word prev s d :
  search_P_digit is_word prev s = Some d -> in_range 48 51 d = true.
Proof.
  revert prev. induction s as [|c s IH]; intros prev H; simpl in H; [discriminate|].
  destruct s as [|d' s'] eqn:Es.
  - discriminate.
  - destruct ((c =? 80)%N && in_range 48 51 d' && _ && _) eqn:E.
    + injection H as <-. apply andb_prop in E as [E _]. apply andb_prop in E as [E _].
      apply andb_prop in E as [_ E]. exact E.
    + exact (IH _ H).
Qed.

Lemma search_digit_range is_word prev s d :
  search_digit is_word prev s = Some d -> in_range 48 51 d = true.
Proof.
  revert prev. induction s as [|c s IH]; intros prev H; simpl in H; [discriminate|].
  destruct (in_range 48 51 c && _ && _) eqn:E.
  - injection H as <-. apply andb_prop in E as [E _]. apply andb_prop in E as [E _]. exact E.
  - exact (IH _ H).
Qed.

Lemma priority_of_digit d : in_range 48 51 d = true -> In [80%N; d] PRIORITIES.
Proof.
  unfold in_range. intros H. apply andb_prop in H as [H1 H2].
  apply N.leb_le in H1. apply N.leb_le in H2.
  assert (Hd : (d = 48 \/ d = 49 \/ d = 50 \/ d = 51)%N) by lia.
  destruct Hd as [E|[E|[E|E]]]; subst d; simpl; tauto.
Qed.

Lemma normalize_priority_cases (upper_cp : uchar -> ustr) (is_word : uchar -> bool)
    (priority : option ustr) (default : ustr) :
  In (_normalize_priority upper_cp is_word priority default) PRIORITIES
  \/ _normalize_priority upper_cp is_word priority default = default.
Proof.
  unfold _normalize_priority.
  destruct (is_empty _); [right; reflexivity|].
  destruct (existsb _ PRIORITIES) eqn:E.
  - left. apply existsb_exists in E as (p & Hp & Ep). apply ustr_eqb_true in Ep.
    rewrite Ep. exact Hp.
  - destruct (search_P_digit is_word None _) as [d|] eqn:Ed.
    + left. exact (priority_of_digit d (search_P_digit_range _ _ _ _ Ed)).
    + destruct (search_digit is_word None _) as [d|] eqn:Ed'; [|right; reflexivity].
      left. exact (priority_of_digit d (search_digit_range _ _ _ _ Ed')).
Qed.

(** X: [_normalize_priority] always returns one of P0..P3 or the given
    default. *)
Theorem normalize_priority_range (upper_cp : uchar -> ustr) (is_word : uchar -> bool)
    (priority : option ustr) (default : ustr) :
  In (_normalize_priority upper_cp is_word priority default) PRIORITIES
  \/ _normalize_priority upper_cp is_word priority default = default.
Proof. apply normalize_priority_cases. Qed.

(** X: with a default among P0..P3, normalizing a priority that
    [_normalize_priority] produced gives it back unchanged (uppercasing
    agreeing with ASCII uppercasing on ASCII). *)
Theorem normalize_priority_idempotent (upper_cp : uchar -> ustr) (is_word : uchar -> bool)
    (Hup : forall c, (c < 128)%N -> upper_cp c = upper_ascii c)
    (priority : option ustr) (default : ustr) (Hd : In default PRIORITIES) :
  let r := _normalize_priority upper_cp is_word priority default in
  _normalize_priority upper_cp is_word (Some r) default = r.
Proof.
  intros r.
  assert (Hr : In r PRIORITIES)
    by (destruct (normalize_priority_cases upper_cp is_word priority default) as [H|H];
        [exact H|unfold r; rewrite H; exact Hd]).
  clearbody r. unfold _normalize_priority.
  simpl in Hr.
  repeat (destruct Hr as [<-|Hr]); try contradiction;
  rewrite py_upper_ascii_agree by (exact Hup || reflexivity);
  reflexivity.
Qed.

Lemma normalize_priority_idempotent_witness :
  _normalize_priority upper_ascii (fun c => az_ascii c || in_range 48 57 c || (c =? 95)%N)
    (Some (_normalize_priority upper_ascii
             (fun c => az_ascii c || in_range 48 57 c || (c =? 95)%N)
             (Some (u " level 3 ")) (u "P2"))) (u "P2")
  = _normalize_priority upper_ascii (fun c => az_ascii c || in_range 48 57 c || (c =? 95)%N)
      (Some (u " level 3 ")) (u "P2").
Proof.
  apply (normalize_priority_idempotent upper_ascii _ (fun c _ => eq_refl)).
  simpl. tauto.
Defined.

(** *** The status server *)

Lemma ustr_eqb_eq a b : ustr_eqb a b = true <-> a = b.
Proof. split; [apply ustr_eqb_true|intros ->; apply ustr_eqb_refl]. Qed.

Lemma ustr_eqb_neq a b : ustr_eqb a b = false <-> a <> b.
Proof.
  split.
  - intros H E. subst. rewrite ustr_eqb_refl in H. discriminate.
  - intros H. destruct (ustr_eqb a b) eqn:E; [apply ustr_eqb_true in E; contradiction|reflexivity].
Qed.

Lemma ustr_eqb_sym a b : ustr_eqb a b = ustr_eqb b a.
Proof.
  destruct (ustr_eqb a b) eqn:E, (ustr_eqb b a) eqn:E'; try reflexivity.
  - apply ustr_eqb_true in E. subst. rewrite ustr_eqb_refl in E'. discriminate.
  - apply ustr_eqb_true in E'. subst. rewrite ustr_eqb_refl in E. discriminate.
Qed.

Lemma session_file_inj a b : _session_file a = _session_file b -> a = b.
Proof. unfold _session_file. apply app_inv_tail. Qed.

Lemma tmp_not_session_file a b : ustr_eqb (tmp_file a) (_session_file b) = false.
Proof.
  apply ustr_eqb_neq. unfold tmp_file, _session_file. intros E.
  apply (f_equal (@rev N)) in E. rewrite !rev_app_distr in E. simpl in E. discriminate.
Qed.

Lemma dir_lookup_replace d n f n' :
  dir_lookup (dir_replace d n f) n' = if ustr_eqb n n' then Some f else dir_lookup d n'.
Proof.
  induction d as [|[m g] d IH]; simpl; [reflexivity|].
  destruct (ustr_eqb m n) eqn:Emn; simpl.
  - apply ustr_eqb_true in Emn. subst m. destruct (ustr_eqb n n'); reflexivity.
  - destruct (ustr_eqb m n') eqn:Emn'; [|exact IH].
    apply ustr_eqb_true in Emn'. subst m. rewrite ustr_eqb_sym, Emn. reflexivity.
Qed.

Lemma dir_lookup_remove d n n' :
  dir_lookup (dir_remove d n) n' = if ustr_eqb n n' then None else dir_lookup d n'.
Proof.
  unfold dir_remove. induction d as [|[m g] d IH]; simpl.
  - destruct (ustr_eqb n n'); reflexivity.
  - destruct (ustr_eqb m n) eqn:Emn; simpl.
    + rewrite IH. apply ustr_eqb_true in Emn. subst m.
      destruct (ustr_eqb n n'); reflexivity.
    + rewrite IH. destruct (ustr_eqb m n') eqn:Emn'; [|reflexivity].
      apply ustr_eqb_true in Emn'. subst m. rewrite ustr_eqb_sym, Emn. reflexivity.
Qed.

(** X: [_validate_session_id] accepts exactly a nonempty run of
    [A-Za-z0-9_.-] characters, optionally followed by a single final
    newline ([$] matches before it); an accepted id never contains '/', so
    the status file named after it stays directly inside STATUS_DIR. *)
Theorem validate_session_id_shape (session_id : ustr) :
  (_validate_session_id session_id = true
   <-> exists r, r <> [] /\ Forall (fun c => is_sid_char c = true) r
                 /\ (session_id = r \/ session_id = r ++ [10%N]))
  /\ (_validate_session_id session_id = true -> ~ In 47%N (_session_file session_id)).
Proof.
  assert (Hiff : _validate_session_id session_id = true
   <-> exists r, r <> [] /\ Forall (fun c => is_sid_char c = true) r
                 /\ (session_id = r \/ session_id = r ++ [10%N])).
  { unfold _validate_session_id. split.
    - intros H. apply andb_prop in H as [Hr Hrest].
      exists (take_while is_sid_char session_id).
      split; [destruct (take_while is_sid_char session_id); [discriminate|discriminate]|].
      split; [apply take_while_all|].
      pose proof (take_drop_while is_sid_char session_id) as E.
      apply orb_prop in Hrest as [He|He].
      + left. destruct (drop_while is_sid_char session_id); [|discriminate].
        rewrite app_nil_r in E. symmetry. exact E.
      + right. apply ustr_eqb_true in He. rewrite He in E. symmetry. exact E.
    - intros (r & Hne & Hr & [->| ->]).
      + rewrite take_while_all_id by exact Hr. rewrite drop_while_all_nil by exact Hr.
        destruct r; [contradiction|reflexivity].
      + rewrite take_while_app_stop by (exact Hr || reflexivity).
        rewrite drop_while_app_stop by (exact Hr || reflexivity).
        destruct r; [contradiction|reflexivity]. }
  split; [exact Hiff|].
  intros H. apply Hiff in H as (r & _ & Hr & Hs). unfold _session_file.
  intros Hin. apply in_app_or in Hin as [Hin|Hin]; [|simpl in Hin; lia].
  assert (Hr47 : ~ In 47%N r).
  { intros Hr'. rewrite Forall_forall in Hr. specialize (Hr _ Hr'). discriminate. }
  destruct Hs as [->| ->]; [contradiction|].
  apply in_app_or in Hin as [Hin|Hin]; [contradiction|simpl in Hin; lia].
Qed.

(** X: a POST accepted by [post_status] stores the payload's state,
    message and progress, with [updated_at] kept when given nonempty and
    set to the current time otherwise; a GET of the same session then
    returns exactly that record, and a GET of any other session answers as
    before the POST. *)
Theorem post_then_get_status (d : status_dir) (session_id : ustr) (p : status_payload)
    (now : ustr) (Hp : payload_valid p = true) (Hs : _validate_session_id session_id = true) :
  exists data,
    snd (post_status d session_id p now) = SOk session_id (StatusJson data)
    /\ sp_state data = sp_state p /\ sp_message data = sp_message p
    /\ sp_progress data = sp_progress p
    /\ sp_updated_at data = match sp_updated_at p with
                            | Some t => if is_empty t then Some now else Some t
                            | None => Some now
                            end
    /\ get_status (fst (post_status d session_id p now)) session_id
       = SOk session_id (StatusJson data)
    /\ forall other, other <> session_id ->
       get_status (fst (post_status d session_id p now)) other = get_status d other.
Proof.
  unfold post_status. rewrite Hp, Hs. simpl.
  set (data := match sp_updated_at p with
               | Some t => if is_empty t then _ else p | None => _ end).
  exists data. split; [reflexivity|].
  assert (Hf : sp_state data = sp_state p /\ sp_message data = sp_message p
               /\ sp_progress data = sp_progress p
               /\ sp_updated_at data = match sp_updated_at p with
                                       | Some t => if is_empty t then Some now else Some t
                                       | None => Some now end).
  { unfold data. destruct (sp_updated_at p) as [t|] eqn:Et; [|simpl; auto].
    destruct (is_empty t); simpl; auto. }
  destruct Hf as (H1 & H2 & H3 & H4).
  split; [exact H1|]. split; [exact H2|]. split; [exact H3|]. split; [exact H4|].
  split.
  - unfold get_status. rewrite Hs. simpl. rewrite dir_lookup_replace, ustr_eqb_refl.
    reflexivity.
  - intros other Ho. unfold get_status.
    destruct (_validate_session_id other); simpl; [|reflexivity].
    rewrite dir_lookup_replace, dir_lookup_remove, tmp_not_session_file.
    replace (ustr_eqb (_session_file session_id) (_session_file other)) with false;
      [reflexivity|].
    symmetry. apply ustr_eqb_neq. intros E. apply session_file_inj in E. congruence.
Qed.

Lemma post_then_get_status_witness :
  exists data,
    snd (post_status [] (u "claude-1") (Build_status_payload (u "done") None (Some 100%Z) None)
           (u "2024-01-01T00:00:00Z")) = SOk (u "claude-1") (StatusJson data)
    /\ sp_state data = u "done" /\ sp_message data = None
    /\ sp_progress data = Some 100%Z
    /\ sp_updated_at data = Some (u "2024-01-01T00:00:00Z")
    /\ get_status (fst (post_status [] (u "claude-1")
                          (Build_status_payload (u "done") None (Some 100%Z) None)
                          (u "2024-01-01T00:00:00Z"))) (u "claude-1")
       = SOk (u "claude-1") (StatusJson data)
    /\ forall other, other <> u "claude-1" ->
       get_status (fst (post_status [] (u "claude-1")
                          (Build_status_payload (u "done") None (Some 100%Z) None)
                          (u "2024-01-01T00:00:00Z"))) other = get_status [] other.
Proof.
  apply (post_then_get_status [] (u "claude-1")
           (Build_status_payload (u "done") None (Some 100%Z) None)
           (u "2024-01-01T00:00:00Z")); vm_compute; reflexivity.
Defined.

(** X: a DELETE of a valid session id reports the deletion when the
    record existed and answers 404 when it did not; afterwards there is no
    record for it: a following GET and a second DELETE both answer 404,
    and every other session answers a GET as before. *)
Theorem delete_status_removes (d : status_dir) (session_id : ustr)
    (Hs : _validate_session_id session_id = true) :
  get_status (fst (delete_status d session_id)) session_id = SError 404
  /\ delete_status (fst (delete_status d session_id)) session_id
     = (fst (delete_status d session_id), SError 404)
  /\ snd (delete_status d session_id)
     = match dir_lookup d (_session_file session_id) with
       | None => SError 404
       | Some _ => SDeleted session_id
       end
  /\ forall other, other <> session_id ->
     get_status (fst (delete_status d session_id)) other = get_status d other.
Proof.
  assert (Hgone : dir_lookup (fst (delete_status d session_id)) (_session_file session_id) = None).
  { unfold delete_status. rewrite Hs. simpl.
    destruct (dir_lookup d (_session_file session_id)) eqn:E; simpl; [|exact E].
    rewrite dir_lookup_remove, ustr_eqb_refl. reflexivity. }
  split; [unfold get_status; rewrite Hs, Hgone; reflexivity|].
  split; [unfold delete_status at 1; rewrite Hs, Hgone; reflexivity|].
  split.
  - unfold delete_status. rewrite Hs. simpl.
    destruct (dir_lookup d (_session_file session_id)); reflexivity.
  - intros other Ho. unfold get_status.
    destruct (_validate_session_id other); simpl; [|reflexivity].
    unfold delete_status. rewrite Hs. simpl.
    destruct (dir_lookup d (_session_file session_id)); simpl; [|reflexivity].
    rewrite dir_lookup_remove.
    replace (ustr_eqb (_session_file session_id) (_session_file other)) with false;
      [reflexivity|].
    symmetry. apply ustr_eqb_neq. intros E. apply session_file_inj in E. congruence.
Qed.

Lemma delete_status_removes_witness :
  get_status (fst (delete_status [(u "a.json", NotJson)] (u "a"))) (u "a") = SError 404
  /\ delete_status (fst (delete_status [(u "a.json", NotJson)] (u "a"))) (u "a")
     = (fst (delete_status [(u "a.json", NotJson)] (u "a")), SError 404)
  /\ snd (delete_status [(u "a.json", NotJson)] (u "a"))
     = match dir_lookup [(u "a.json", NotJson)] (_session_file (u "a")) with
       | None => SError 404
       | Some _ => SDeleted (u "a")
       end
  /\ forall other, other <> u "a" ->
     get_status (fst (delete_status [(u "a.json", NotJson)] (u "a"))) other
     = get_status [(u "a.json", NotJson)] other.
Proof. apply delete_status_removes. vm_compute. reflexivity. Defined.

(** X: a POST changes only the session's file and its temporary file
    [<id>.json.tmp], which is absent after a successful POST (a file of
    that name left over is replaced and renamed away); a DELETE changes
    only the session's file; a POST or DELETE answered with an error (422,
    400, 404) leaves the status directory exactly as it was. *)
Theorem status_writes_are_local (d : status_dir) (session_id : ustr) (p : status_payload)
    (now : ustr) :
  (forall n, n <> _session_file session_id -> n <> tmp_file session_id ->
     dir_lookup (fst (post_status d session_id p now)) n = dir_lookup d n)
  /\ (forall r f, snd (post_status d session_id p now) = SOk r f ->
        dir_lookup (fst (post_status d session_id p now)) (tmp_file session_id) = None)
  /\ (forall n, n <> _session_file session_id ->
        dir_lookup (fst (delete_status d session_id)) n = dir_lookup d n)
  /\ (forall code, snd (post_status d session_id p now) = SError code ->
        fst (post_status d session_id p now) = d)
  /\ (forall code, snd (delete_status d session_id) = SError code ->
        fst (delete_status d session_id) = d).
Proof.
  split; [|split; [|split; [|split]]].
  - intros n Hn Ht.
    assert (Hf : ustr_eqb (_session_file session_id) n = false) by (apply ustr_eqb_neq; congruence).
    assert (Hf' : ustr_eqb (tmp_file session_id) n = false) by (apply ustr_eqb_neq; congruence).
    unfold post_status. destruct (negb (payload_valid p)); [reflexivity|].
    destruct (negb (_validate_session_id session_id)); [reflexivity|].
    cbn [fst]. rewrite dir_lookup_replace, Hf, dir_lookup_remove, Hf'. reflexivity.
  - intros r f. unfold post_status. destruct (negb (payload_valid p)); [discriminate|].
    destruct (negb (_validate_session_id session_id)); [discriminate|]. intros _.
    cbn [fst]. rewrite dir_lookup_replace, ustr_eqb_sym, tmp_not_session_file,
      dir_lookup_remove, ustr_eqb_refl. reflexivity.
  - intros n Hn.
    assert (Hf : ustr_eqb (_session_file session_id) n = false) by (apply ustr_eqb_neq; congruence).
    unfold delete_status. destruct (negb (_validate_session_id session_id)); [reflexivity|].
    destruct (dir_lookup d (_session_file session_id)); [|reflexivity].
    simpl. rewrite dir_lookup_remove, Hf. reflexivity.
  - intros code. unfold post_status. destruct (negb (payload_valid p)); [reflexivity|].
    destruct (negb (_validate_session_id session_id)); [reflexivity|]. discriminate.
  - intros code. unfold delete_status. destruct (negb (_validate_session_id session_id));
      [reflexivity|].
    destruct (dir_lookup d (_session_file session_id)); [discriminate|reflexivity].
Qed.







(** *** The queue endpoints *)

Lemma qstate_eqb_eq a b : qstate_eqb a b = true <-> a = b.
Proof. split; [apply qstate_eqb_true|intros ->; destruct b; reflexivity]. Qed.

Lemma qstate_eqb_neq a b : qstate_eqb a b = false <-> a <> b.
Proof.
  split; [intros H E; subst; destruct b; discriminate|].
  intros H. destruct (qstate_eqb a b) eqn:E; [apply qstate_eqb_true in E; contradiction|reflexivity].
Qed.

Lemma in_STATES q : In q STATES.
Proof. destruct q; simpl; tauto. Qed.

Lemma qstate_of_name_name q : qstate_of_name (py_strip (or_empty (Some (qstate_name q)))) = Some q.
Proof. destruct q; vm_compute; reflexivity. Qed.

Lemma files_move_file w src dst id c q id' :
  files (move_file w src dst id c) q id'
  = if qstate_eqb q src && ustr_eqb id' id then None
    else if qstate_eqb q dst && ustr_eqb id' id then Some c
    else files w q id'.
Proof. reflexivity. Qed.

(** The task is held by the directory [h] alone. *)
Lemma find_task_unique w id h c qs :
  (forall q, files w q id <> None -> q = h) -> files w h id = Some c -> In h qs ->
  find_task w id qs = Some (h, c).
Proof.
  intros Hu Hc. induction qs as [|q qs IH]; simpl; [tauto|].
  intros Hin. destruct (files w q id) eqn:E.
  - assert (q = h) by (apply Hu; congruence). subst q. congruence.
  - destruct Hin as [<-|Hin]; [congruence|exact (IH Hin)].
Qed.


(** X: with the task held by one queue directory only, moving it to any
    state (and from there back to the original state) is a round trip:
    after the first move a GET reports the task in the target state with
    its content unchanged, and after the move back every queue directory
    holds exactly what it held before. *)
Theorem move_task_round_trip (w : world) (task_id : ustr) (from target : qstate)
    (c : ustr)
    (Hu : forall q, files w q task_id <> None -> q = from)
    (Hc : files w from task_id = Some c) :
  let w1 := fst (api_move_task w task_id (Some (qstate_name target))) in
  let w2 := fst (api_move_task w1 task_id (Some (qstate_name from))) in
  api_get_task w1 task_id = TaskFound target c (_parse_task_spec task_id c)
  /\ forall q id', files w2 q id' = files w q id'.
Proof.
  assert (Hf : find_task w task_id STATES = Some (from, c))
    by (apply find_task_unique; [exact Hu|exact Hc|apply in_STATES]).
  intros w1 w2. subst w2 w1.
  unfold api_move_task. rewrite !qstate_of_name_name, Hf.
  destruct (qstate_eqb from target) eqn:Eft.
  - apply qstate_eqb_true in Eft. subst target. cbv beta iota.
    replace (qstate_eqb from from) with true by (destruct from; reflexivity).
    cbv beta iota. cbn [fst]. rewrite Hf. cbv beta iota.
    replace (qstate_eqb from from) with true by (destruct from; reflexivity).
    split; [unfold api_get_task; rewrite Hf; reflexivity|reflexivity].
  - apply qstate_eqb_neq in Eft.
    set (w1 := move_file w from target task_id c).
    assert (Hu1' : forall q, files w1 q task_id <> None -> q = target).
    { intros q. unfold w1. rewrite files_move_file, ustr_eqb_refl, !andb_true_r.
      destruct (qstate_eqb q from) eqn:E1; [intros H; contradiction|].
      destruct (qstate_eqb q target) eqn:E2; [intros _; apply qstate_eqb_true; exact E2|].
      intros H. apply qstate_eqb_neq in E1. exfalso. exact (E1 (Hu q H)). }
    assert (Hc1 : files w1 target task_id = Some c).
    { unfold w1. apply files_move_dst. apply qstate_eqb_neq. congruence. }
    assert (Hf1 : find_task w1 task_id STATES = Some (target, c))
      by (apply find_task_unique; [exact Hu1'|exact Hc1|apply in_STATES]).
    cbv beta iota. cbn [fst]. split; [unfold api_get_task; rewrite Hf1; reflexivity|].
    rewrite Hf1. cbv beta iota.
    replace (qstate_eqb target from) with false
      by (symmetry; apply qstate_eqb_neq; congruence).
    cbn [fst]. intros q id'. rewrite files_move_file. unfold w1. rewrite files_move_file.
    destruct (ustr_eqb id' task_id) eqn:Ei; [|rewrite !andb_false_r; reflexivity].
    apply ustr_eqb_true in Ei. subst id'. rewrite !andb_true_r.
    destruct (qstate_eqb q target) eqn:E1.
    + apply qstate_eqb_true in E1. subst q.
      replace (qstate_eqb target from) with false
        by (symmetry; apply qstate_eqb_neq; congruence).
      destruct (files w target task_id) eqn:E; [|reflexivity].
      exfalso. apply Eft. symmetry. apply Hu. congruence.
    + destruct (qstate_eqb q from) eqn:E2; [|reflexivity].
      apply qstate_eqb_true in E2. subst q. symmetry. exact Hc.
Qed.

Lemma move_task_round_trip_witness :
  let w1 := fst (api_move_task (demo_queue demo_spec) demo_task_id
                   (Some (qstate_name Completed))) in
  let w2 := fst (api_move_task w1 demo_task_id (Some (qstate_name Pending))) in
  api_get_task w1 demo_task_id
  = TaskFound Completed demo_spec (_parse_task_spec demo_task_id demo_spec)
  /\ forall q id', files w2 q id' = files (demo_queue demo_spec) q id'.
Proof.
  apply (move_task_round_trip (demo_queue demo_spec) demo_task_id Pending Completed demo_spec).
  - intros q. cbn [files demo_queue]. rewrite ustr_eqb_refl, andb_true_r.
    destruct (qstate_eqb q Pending) eqn:E; [intros _; apply qstate_eqb_true; exact E|].
    intros H. exfalso. apply H. reflexivity.
  - vm_compute. reflexivity.
Defined.

Lemma find_task_none w id qs :
  (forall q, In q qs -> files w q id = None) -> find_task w id qs = None.
Proof.
  induction qs as [|q qs IH]; simpl; intros H; [reflexivity|].
  rewrite (H q (or_introl eq_refl)). apply IH. intros q' Hq'. apply H. tauto.
Qed.

Lemma files_put_frame w st id c q id' :
  q <> st \/ id' <> id -> files (put_file w st id c) q id' = files w q id'.
Proof.
  intros H. rewrite files_put_file.
  destruct (qstate_eqb q st) eqn:E1, (ustr_eqb id' id) eqn:E2; try reflexivity.
  apply qstate_eqb_true in E1. apply ustr_eqb_true in E2. tauto.
Qed.

(** X: [api_delete_task] removes the copy of the task that a GET shows
    (the first in the order pending, in-progress, blocked, completed,
    learning) and nothing else; when that was the task's only copy, a GET
    afterwards answers not found. When nothing holds the task the delete
    answers 404 and changes nothing. *)
Theorem delete_task_effect (w : world) (task_id : ustr) :
  match api_delete_task w task_id with
  | (w', QOk st) =>
      (exists c, find_task w task_id STATES = Some (st, c))
      /\ files w' st task_id = None
      /\ (forall q id', q <> st \/ id' <> task_id -> files w' q id' = files w q id')
      /\ ((forall q, q <> st -> files w q task_id = None) ->
          api_get_task w' task_id = TaskNotFound)
  | (w', r) => r = QError 404 /\ w' = w /\ api_get_task w task_id = TaskNotFound
  end.
Proof.
  unfold api_delete_task.
  destruct (find_task w task_id STATES) as [[st c]|] eqn:Ef.
  - split; [exists c; reflexivity|]. split.
    + rewrite files_put_file, ustr_eqb_refl. destruct st; reflexivity.
    + split; [intros q id' H; apply files_put_frame; exact H|].
      intros Hu. unfold api_get_task. rewrite find_task_none; [reflexivity|].
      intros q _. destruct (qstate_eqb q st) eqn:E.
      * apply qstate_eqb_true in E. subst q.
        rewrite files_put_file, ustr_eqb_refl. destruct st; reflexivity.
      * apply qstate_eqb_neq in E. rewrite files_put_frame by (left; exact E).
        apply Hu. exact E.
  - split; [reflexivity|]. split; [reflexivity|]. unfold api_get_task. rewrite Ef. reflexivity.
Qed.


(** *** _extract_field and _derive_title_from_prompt *)

Lemma Forall_skipn_of {A} (P : A -> Prop) n l : Forall P l -> Forall P (skipn n l).
Proof.
  intros H. rewrite <- (firstn_skipn n l) in H. apply Forall_app in H. apply H.
Qed.

Lemma Forall_drop_while (P : uchar -> Prop) p s : Forall P s -> Forall P (drop_while p s).
Proof. intros H. destruct (drop_while_suffix p s) as [k ->]. apply Forall_skipn_of, H. Qed.

Lemma Forall_py_strip (P : uchar -> Prop) s : Forall P s -> Forall P (py_strip s).
Proof.
  intros H. destruct (py_strip_slice s) as (a & b & E). rewrite E in H.
  apply Forall_app in H as [_ H]. apply Forall_app in H as [H _]. exact H.
Qed.

Lemma Forall_py_rstrip (P : uchar -> Prop) s : Forall P s -> Forall P (py_rstrip s).
Proof. intros H. unfold py_rstrip. apply Forall_rev, Forall_drop_while, Forall_rev, H. Qed.

Lemma length_py_rstrip s : (List.length (py_rstrip s) <= List.length s)%nat.
Proof.
  unfold py_rstrip. rewrite length_rev.
  destruct (drop_while_suffix is_space (rev s)) as [k ->].
  rewrite length_skipn, length_rev. lia.
Qed.

Lemma drop_while_app_exists p s t :
  existsb (fun c => negb (p c)) s = true -> drop_while p (s ++ t) = drop_while p s ++ t.
Proof.
  induction s as [|c s IH]; simpl; [discriminate|].
  destruct (p c); simpl; [exact IH|reflexivity].
Qed.

Lemma py_rstrip_head c r : is_space c = false -> exists t, py_rstrip (c :: r) = c :: t.
Proof.
  intros Hc. unfold py_rstrip. simpl.
  assert (D : forall s, drop_while is_space (s ++ [c]) = drop_while is_space s ++ [c]).
  { induction s as [|x s IH]; simpl; [now rewrite Hc|].
    destruct (is_space x); [exact IH|reflexivity]. }
  rewrite D, rev_app_distr. simpl. eauto.
Qed.

Lemma py_strip_head c r : is_space c = false -> exists t, py_strip (c :: r) = c :: t.
Proof.
  intros Hc. unfold py_strip. rewrite drop_while_head by exact Hc.
  apply py_rstrip_head, Hc.
Qed.

Lemma py_strip_prefix x c y :
  Forall (fun a => is_space a = false) x -> is_space c = false ->
  py_strip (x ++ c :: y) = x ++ py_strip (c :: y).
Proof.
  intros Hx Hc. unfold py_strip.
  assert (Hd : forall z, Forall (fun a => is_space a = false) z ->
             drop_while is_space (z ++ c :: y) = z ++ c :: y).
  { intros z Hz. destruct Hz as [|a z Ha _]; simpl; [now rewrite Hc|now rewrite Ha]. }
  rewrite (Hd x Hx), (drop_while_head is_space c y Hc).
  rewrite rev_app_distr.
  rewrite drop_while_app_exists.
  - rewrite rev_app_distr, rev_involutive. reflexivity.
  - apply existsb_exists. exists c. split; [simpl; apply in_or_app; right; simpl; tauto|].
    now rewrite Hc.
Qed.

(** X: a value [_extract_field] returns is nonempty, lies on one line (no
    newline) and has no blank character at either end (stripping it again
    changes nothing). *)
Theorem extract_field_value_shape (content field v : ustr)
    (H : _extract_field content field = Some v) :
  v <> [] /\ ~ In 10%N v /\ no_blank_ends v /\ py_strip v = v.
Proof.
  revert H. unfold _extract_field.
  destruct (after_first _ content) as [rest|]; [|discriminate].
  set (line := take_while (fun c => negb (c =? 10)%N) rest).
  assert (Hl : Forall (fun c => c <> 10%N) line).
  { eapply Forall_impl; [|apply take_while_all]. intros a Ha E. subst. discriminate. }
  set (value := py_strip _).
  assert (Hv : Forall (fun c => c <> 10%N) value)
    by (apply Forall_py_strip, Forall_drop_while, Hl).
  assert (Hn : no_blank_ends value) by apply py_strip_no_blank_ends.
  destruct (is_empty value) eqn:E; [discriminate|]. intros Hs. injection Hs as <-.
  split; [destruct value; discriminate|].
  split; [intros Hin; rewrite Forall_forall in Hv; exact (Hv _ Hin eq_refl)|].
  split; [exact Hn|apply py_strip_id, Hn].
Qed.

Lemma extract_field_value_shape_witness :
  _extract_field demo_spec (u "Agent") = Some (u "codex")
  /\ u "codex" <> [] /\ ~ In 10%N (u "codex") /\ no_blank_ends (u "codex")
  /\ py_strip (u "codex") = u "codex".
Proof.
  assert (H : _extract_field demo_spec (u "Agent") = Some (u "codex"))
    by (vm_compute; reflexivity).
  split; [exact H|]. exact (extract_field_value_shape demo_spec (u "Agent") (u "codex") H).
Defined.

Lemma splitlines_go_no_break n cur s :
  (List.length s <= n)%nat -> Forall (fun c => is_line_break c = false) cur ->
  Forall (fun l => Forall (fun c => is_line_break c = false) l) (splitlines_go cur s).
Proof.
  revert cur s. induction n as [|n IH]; intros cur s Hlen Hcur.
  - destruct s; [|simpl in Hlen; lia]. simpl.
    destruct (is_empty cur); repeat constructor. apply Forall_rev, Hcur.
  - destruct s as [|c s'].
    + simpl. destruct (is_empty cur); repeat constructor. apply Forall_rev, Hcur.
    + simpl in Hlen. simpl.
      destruct ((c =? 13)%N).
      * destruct s' as [|d s''].
        -- constructor; [apply Forall_rev, Hcur|]. apply IH; [simpl; lia|constructor].
        -- destruct ((d =? 10)%N); (constructor; [apply Forall_rev, Hcur|]);
             apply IH; (simpl in *; lia || constructor).
      * destruct (is_line_break c) eqn:Eb.
        -- constructor; [apply Forall_rev, Hcur|]. apply IH; [lia|constructor].
        -- apply IH; [lia|constructor; assumption].
Qed.

Lemma splitlines_no_break s :
  Forall (fun l => Forall (fun c => is_line_break c = false) l) (splitlines s).
Proof. apply (splitlines_go_no_break (List.length s)); [lia|constructor]. Qed.

Lemma derive_title_facts (prompt : ustr) :
  let t := _derive_title_from_prompt prompt in
  t <> [] /\ (List.length t <= 80)%nat
  /\ Forall (fun c => is_line_break c = false) t /\ no_blank_ends t.
Proof.
  intros t. unfold t, _derive_title_from_prompt.
  generalize (splitlines_no_break prompt).
  induction (splitlines prompt) as [|raw ls IH]; intros Hls.
  - vm_compute. split; [discriminate|]. split; [lia|]. split; [repeat constructor|].
    split; [reflexivity|]. exists (u "Quick tas"), 107%N. split; reflexivity.
  - inversion Hls as [|? ? Hraw Hrest]; subst. cbn [title_from_lines].
    destruct (is_empty (py_strip raw)); [exact (IH Hrest)|].
    set (line := py_strip (drop_while title_strip_class (py_strip raw))).
    assert (Hlb : Forall (fun c => is_line_break c = false) line)
      by (apply Forall_py_strip, Forall_drop_while, Forall_py_strip, Hraw).
    assert (Hnb : no_blank_ends line) by apply py_strip_no_blank_ends.
    destruct (is_empty line) eqn:Ee; [exact (IH Hrest)|].
    destruct (80 <? List.length line)%nat eqn:El.
    + apply Nat.ltb_lt in El.
      destruct line as [|c r] eqn:Eline; [discriminate|].
      destruct Hnb as [Hc _].
      change (firstn 77 (c :: r)) with (c :: firstn 76 r).
      destruct (py_rstrip_head c (firstn 76 r) Hc) as [t' Et'].
      rewrite Et'.
      split; [discriminate|]. split.
      * rewrite <- Et', length_app.
        pose proof (length_py_rstrip (c :: firstn 76 r)) as Hp.
        pose proof (firstn_le_length 76 r) as Hf.
        change (List.length (c :: firstn 76 r)) with (S (List.length (firstn 76 r))) in Hp.
        change (List.length (u "...")) with 3%nat. lia.
      * split.
        -- apply Forall_app. split; [|repeat constructor].
           rewrite <- Et'. apply Forall_py_rstrip.
           change (c :: firstn 76 r) with (firstn 77 (c :: r)).
           apply Forall_firstn_of, Hlb.
        -- simpl. split; [exact Hc|]. exists (c :: t' ++ u ".."), 46%N.
           split; [|reflexivity]. simpl. rewrite <- app_assoc. reflexivity.
    + apply Nat.ltb_ge in El. split; [destruct line; discriminate|].
      split; [exact El|]. split; [exact Hlb|exact Hnb].
Qed.

(** X: [_derive_title_from_prompt] always returns a nonempty title of at
    most 80 characters, on a single line (no line-break character) and
    with no blank character at either end. *)
Theorem derive_title_shape (prompt : ustr) :
  let t := _derive_title_from_prompt prompt in
  t <> [] /\ (List.length t <= 80)%nat
  /\ Forall (fun c => is_line_break c = false) t /\ no_blank_ends t.
Proof. apply derive_title_facts. Qed.

Lemma splitlines_go_first cur s rest :
  Forall (fun c => is_line_break c = false) s ->
  (rest = [] /\ rev cur ++ s <> [] \/ exists b r, rest = b :: r /\ is_line_break b = true) ->
  exists tl, splitlines_go cur (s ++ rest) = (rev cur ++ s) :: tl.
Proof.
  intros Hs. revert cur. induction Hs as [|c s Hc _ IH]; intros cur Hr; simpl.
  - rewrite app_nil_r. destruct Hr as [[-> Hne]|(b & r & -> & Hb)].
    + simpl. rewrite app_nil_r in Hne. destruct cur as [|x cur]; [contradiction|].
      exists []. reflexivity.
    + simpl. destruct ((b =? 13)%N).
      * destruct r as [|d r']; [eexists; reflexivity|].
        destruct ((d =? 10)%N); eexists; reflexivity.
      * rewrite Hb. eexists; reflexivity.
  - assert (H13 : (c =? 13)%N = false)
      by (apply N.eqb_neq; intros ->; discriminate).
    rewrite H13, Hc.
    destruct (IH (c :: cur)) as [tl Etl].
    + destruct Hr as [[-> _]|Hr]; [left; split; [reflexivity|]|right; exact Hr].
      simpl. rewrite <- app_assoc. simpl. destruct (rev cur); discriminate.
    + exists tl. rewrite Etl. simpl. rewrite <- app_assoc. reflexivity.
Qed.

(** X: the title is the first line with its leading run of title-marker
    characters removed, where the marker class is [#], [>], [*], backslash
    and the letter [s] (the raw regex [^[#>*\\-\\s]+] holds no dash and no
    whitespace class): for a first line made of such a run [x] followed by
    a text [y] whose first character is neither a marker nor blank, with
    [y] stripped at most 80 characters long, the title is [y] stripped. *)
Theorem derive_title_first_line (x y rest : ustr) (c : uchar) (y' : ustr)
    (Hy : y = c :: y')
    (Hx : Forall (fun a => title_strip_class a = true) x)
    (Hc : title_strip_class c = false) (Hcs : is_space c = false)
    (Hnb : Forall (fun a => is_line_break a = false) (x ++ y))
    (Hrest : rest = [] \/ exists b r, rest = b :: r /\ is_line_break b = true)
    (Hlen : (List.length (py_strip y) <= 80)%nat) :
  _derive_title_from_prompt (x ++ y ++ rest) = py_strip y.
Proof.
  unfold _derive_title_from_prompt, splitlines.
  rewrite app_assoc.
  destruct (splitlines_go_first [] (x ++ y) rest Hnb) as [tl Etl].
  { destruct Hrest as [->|Hr]; [left; split; [reflexivity|]|right; exact Hr].
    subst y. simpl. destruct x; discriminate. }
  rewrite Etl. simpl.
  assert (Hxs : Forall (fun a => is_space a = false) x).
  { eapply Forall_impl; [|exact Hx]. intros a Ha.
    unfold title_strip_class in Ha.
    repeat (apply orb_prop in Ha as [Ha|Ha]); apply N.eqb_eq in Ha; subst; reflexivity. }
  subst y. rewrite py_strip_prefix by assumption.
  destruct (py_strip_head c y' Hcs) as [t Et]. rewrite Et.
  replace (is_empty (x ++ c :: t)) with false by (destruct x; reflexivity).
  rewrite drop_while_all by exact Hx.
  rewrite (drop_while_head title_strip_class c t Hc), <- Et, py_strip_idem.
  replace (is_empty (py_strip (c :: y'))) with false by (rewrite Et; reflexivity).
  replace (80 <? List.length (py_strip (c :: y')))%nat with false
    by (symmetry; apply Nat.ltb_ge; exact Hlen).
  reflexivity.
Qed.

Lemma derive_title_first_line_witness :
  _derive_title_from_prompt (u "s" ++ u "tart the server" ++ []) = u "tart the server".
Proof.
  apply (derive_title_first_line (u "s") (u "tart the server") [] 116%N (u "art the server"));
    first [reflexivity | solve [repeat constructor] | (left; reflexivity) | (vm_compute; lia)].
Defined.

(** *** parse_template_fields *)

Lemma contains_app_r p a t : contains p t = true -> contains p (a ++ t) = true.
Proof.
  induction a as [|x a IH]; simpl; [tauto|]. intros H. rewrite (IH H). apply orb_true_r.
Qed.

Lemma contains_cons p c s : contains p (c :: s) = startswith p (c :: s) || contains p s.
Proof. reflexivity. Qed.

Lemma startswith_open2_false q z y t :
  y <> 123%N -> startswith (123%N :: 123%N :: q) (z :: y :: t) = false.
Proof.
  intros Hy. cbn [startswith].
  replace ((123 =? y)%N) with false by (symmetry; apply N.eqb_neq; congruence).
  rewrite andb_false_l, andb_false_r. reflexivity.
Qed.

Lemma contains_startswith p s : startswith p s = true -> contains p s = true.
Proof. intros H. destruct s; simpl; rewrite H; reflexivity. Qed.

Lemma contains_skip_no_open n' a t :
  Forall (fun x => x <> 123%N) a ->
  contains (123%N :: n') (a ++ t) = true -> contains (123%N :: n') t = true.
Proof.
  induction 1 as [|x a Hx _ IH]; [tauto|].
  intros H. apply IH. revert H.
  change (contains (123%N :: n') ((x :: a) ++ t))
    with (((123 =? x)%N && startswith n' (a ++ t)) || contains (123%N :: n') (a ++ t)).
  replace ((123 =? x)%N) with false by (symmetry; apply N.eqb_neq; congruence).
  exact (fun H => H).
Qed.

Lemma field_pat_match n r :
  n <> [] -> Forall (fun c => is_field_char c = true) n ->
  let s := field_pat n ++ r in
  startswith (u "{{") s = true
  /\ take_while is_field_char (skipn 2 s) = n
  /\ drop_while is_field_char (skipn 2 s) = u "}}" ++ r.
Proof.
  intros Hne Hn s. unfold s, field_pat. rewrite <- !app_assoc.
  change (skipn 2 (u "{{" ++ n ++ u "}}" ++ r)) with (n ++ u "}}" ++ r).
  split; [reflexivity|].
  split; [apply take_while_app_stop; [exact Hn|reflexivity]|].
  apply drop_while_app_stop; [exact Hn|reflexivity].
Qed.

Lemma findall_fields_sound fuel s n :
  In n (findall_fields fuel s) ->
  n <> [] /\ Forall (fun c => is_field_char c = true) n /\ contains (field_pat n) s = true.
Proof.
  revert s. induction fuel as [|f IH]; intros s; [simpl; tauto|].
  destruct s as [|c s']; [simpl; tauto|]. cbn [findall_fields].
  set (body := skipn 2 (c :: s')).
  destruct (startswith (u "{{") (c :: s') && negb (is_empty (take_while is_field_char body))
            && startswith (u "}}") (drop_while is_field_char body)) eqn:E;
    cbv beta iota.
  - apply andb_prop in E as [E E3]. apply andb_prop in E as [E1 E2].
    destruct (startswith_app_inv _ _ E1) as [r1 Er1].
    destruct (startswith_app_inv _ _ E3) as [r3 Er3].
    assert (Hs : c :: s' = field_pat (take_while is_field_char body) ++ r3).
    { unfold field_pat. rewrite Er1. simpl. f_equal. f_equal.
      assert (Hb : body = r1) by (unfold body; rewrite Er1; reflexivity).
      rewrite <- Hb, <- (take_drop_while is_field_char body) at 1. rewrite Er3.
      rewrite <- app_assoc. reflexivity. }
    assert (Hskip : skipn 2 (drop_while is_field_char body) = r3) by (rewrite Er3; reflexivity).
    intros [<-|Hin].
    + split; [destruct (take_while is_field_char body); discriminate|].
      split; [apply take_while_all|].
      rewrite Hs. apply contains_startswith, startswith_app.
    + rewrite Hskip in Hin. destruct (IH _ Hin) as (H1 & H2 & H3).
      split; [exact H1|]. split; [exact H2|]. rewrite Hs. apply contains_app_r, H3.
  - intros Hin. destruct (IH _ Hin) as (H1 & H2 & H3).
    split; [exact H1|]. split; [exact H2|]. simpl. rewrite H3. apply orb_true_r.
Qed.

Lemma findall_fields_complete fuel s n :
  (List.length s <= fuel)%nat -> n <> [] -> Forall (fun c => is_field_char c = true) n ->
  contains (field_pat n) s = true -> In n (findall_fields fuel s).
Proof.
  intros Hl Hne Hn. revert s Hl. induction fuel as [|f IH]; intros s Hl Hc.
  - destruct s; [discriminate|simpl in Hl; lia].
  - destruct s as [|c s']; [discriminate|]. cbn [findall_fields].
    set (body := skipn 2 (c :: s')).
    assert (A : startswith (field_pat n) (c :: s') = true ->
                startswith (u "{{") (c :: s') = true
                /\ take_while is_field_char body = n
                /\ startswith (u "}}") (drop_while is_field_char body) = true).
    { intros H. destruct (startswith_app_inv _ _ H) as [r Er].
      destruct (field_pat_match n r Hne Hn) as (B1 & B2 & B3).
      unfold body. rewrite Er. split; [exact B1|]. split; [exact B2|].
      rewrite B3. apply startswith_app. }
    destruct (startswith (u "{{") (c :: s') && negb (is_empty (take_while is_field_char body))
              && startswith (u "}}") (drop_while is_field_char body)) eqn:E;
      cbv beta iota.
    + destruct (list_eq_dec N.eq_dec (take_while is_field_char body) n) as [Eq|Neq];
        [left; exact Eq|right].
      assert (Hnot : startswith (field_pat n) (c :: s') = false).
      { destruct (startswith (field_pat n) (c :: s')) eqn:Es; [|reflexivity].
        exfalso. apply Neq. apply (A eq_refl). }
      rewrite contains_cons, Hnot in Hc. simpl in Hc.
      apply andb_prop in E as [E E3]. apply andb_prop in E as [E1 E2].
      destruct (startswith_app_inv _ _ E1) as [r1 Er1].
      destruct (startswith_app_inv _ _ E3) as [r3 Er3].
      set (name := take_while is_field_char body) in *.
      assert (Hb : body = name ++ u "}}" ++ r3)
        by (rewrite <- (take_drop_while is_field_char body), Er3; reflexivity).
      assert (Hs' : s' = 123%N :: name ++ u "}}" ++ r3).
      { assert (body = skipn 2 (c :: s')) by reflexivity.
        rewrite Er1 in H. simpl in H. injection Er1 as _ Es'. rewrite Es'. f_equal.
        rewrite <- H. exact Hb. }
      assert (Hname : Forall (fun c => is_field_char c = true) name) by apply take_while_all.
      destruct name as [|x name'] eqn:En; [discriminate E2|].
      rewrite Hs', contains_cons in Hc.
      pose proof (Forall_inv Hname) as Hx. simpl in Hx.
      change (field_pat n) with (123%N :: 123%N :: (n ++ u "}}")) in Hc.
      rewrite <- app_comm_cons in Hc.
      rewrite startswith_open2_false in Hc
        by (intros E'; subst; discriminate Hx).
      rewrite orb_false_l in Hc.
      replace (x :: name' ++ u "}}" ++ r3) with ((x :: name' ++ u "}}") ++ r3) in Hc
        by (simpl; rewrite <- app_assoc; reflexivity).
      change (field_pat n) with (123%N :: (123%N :: (n ++ u "}}"))).
      apply contains_skip_no_open in Hc.
      * replace (skipn 2 (drop_while is_field_char body)) with r3 by (rewrite Er3; reflexivity).
        apply IH; [|exact Hc].
        assert (Hlen : List.length (c :: s') = (4 + List.length name' + List.length r3)%nat + 1)
          by (rewrite Hs'; simpl; rewrite length_app; simpl; lia).
        lia.
      * constructor; [intros E'; subst; discriminate Hx|].
        apply Forall_app. split.
        -- eapply Forall_impl; [|exact (Forall_inv_tail Hname)].
           intros a Ha E'. subst. discriminate Ha.
        -- repeat constructor; discriminate.
    + assert (Hnot : startswith (field_pat n) (c :: s') = false).
      { destruct (startswith (field_pat n) (c :: s')) eqn:Es; [|reflexivity].
        destruct (A eq_refl) as (B1 & B2 & B3). rewrite B1, B2, B3 in E.
        destruct n; [contradiction|discriminate]. }
      rewrite contains_cons, Hnot in Hc. simpl in Hc. apply IH; [simpl in Hl; lia|exact Hc].
Qed.

Lemma dedup_seen_in seen ms x :
  In x (dedup_seen seen ms) <-> In x ms /\ ~ In x seen.
Proof.
  revert seen. induction ms as [|m ms IH]; intros seen; simpl; [tauto|].
  destruct (existsb (ustr_eqb m) seen) eqn:E.
  - apply existsb_exists in E as (y & Hy & Ey). apply ustr_eqb_true in Ey. subst y.
    rewrite IH. split; [tauto|]. intros [[<-|H] Hn]; [contradiction|tauto].
  - simpl. rewrite IH. simpl.
    assert (Hm : ~ In m seen).
    { intros Hm. assert (existsb (ustr_eqb m) seen = true)
        by (apply existsb_exists; exists m; split; [exact Hm|apply ustr_eqb_refl]).
      congruence. }
    split.
    + intros [<-|[H1 H2]]; [tauto|tauto].
    + intros [[<-|H1] H2]; [tauto|].
      destruct (list_eq_dec N.eq_dec m x) as [<-|Hne]; [tauto|]. right. tauto.
Qed.

Lemma dedup_seen_nodup seen ms : NoDup (dedup_seen seen ms).
Proof.
  revert seen. induction ms as [|m ms IH]; intros seen; simpl; [constructor|].
  destruct (existsb (ustr_eqb m) seen); [apply IH|].
  constructor; [|apply IH]. rewrite dedup_seen_in. simpl. tauto.
Qed.

(** X: [parse_template_fields] lists each placeholder name once; the names
    listed are exactly the nonempty runs of [A-Z_] that occur in the
    template between double braces, [{{NAME}}]; every field is marked
    required, and marked automatic exactly when its name is in
    AUTO_FIELDS. *)
Theorem parse_template_fields_spec (content : ustr) :
  NoDup (map field_name (parse_template_fields content))
  /\ (forall n, In n (map field_name (parse_template_fields content))
       <-> n <> [] /\ Forall (fun c => is_field_char c = true) n
           /\ contains (u "{{" ++ n ++ u "}}") content = true)
  /\ (forall f, In f (parse_template_fields content) ->
       field_required f = true
       /\ field_auto f = existsb (ustr_eqb (field_name f)) AUTO_FIELDS).
Proof.
  assert (Hm : map field_name (parse_template_fields content)
               = dedup_seen [] (findall_fields (List.length content) content)).
  { unfold parse_template_fields. rewrite map_map. apply map_id. }
  rewrite Hm. split; [apply dedup_seen_nodup|]. split.
  - intros n. rewrite dedup_seen_in. split.
    + intros [H _]. exact (findall_fields_sound _ _ _ H).
    + intros (H1 & H2 & H3). split; [|simpl; tauto].
      apply findall_fields_complete; [lia|exact H1|exact H2|exact H3].
  - intros f Hf. unfold parse_template_fields in Hf.
    apply in_map_iff in Hf as (m & <- & _). simpl. split; reflexivity.
Qed.

(** *** _list_tmux_sessions *)

Lemma tmux_field_ok_forall s :
  tmux_field_ok s = true -> Forall (fun ch => is_space ch = false /\ ch <> 124%N) s.
Proof.
  unfold tmux_field_ok. intros H. apply Forall_forall. intros ch Hin.
  rewrite forallb_forall in H. specialize (H ch Hin).
  apply andb_prop in H as [H1 H2]. apply negb_true_iff in H1. apply negb_true_iff in H2.
  split; [exact H1|]. apply N.eqb_neq, H2.
Qed.

Lemma format_line_eq e :
  (let '(n, c, a, w) := e in tmux_format_line n c a w) = tmux_line e ++ [10%N].
Proof.
  destruct e as [[[n c] a] w]. unfold tmux_format_line, tmux_line.
  rewrite <- !app_assoc. reflexivity.
Qed.

Lemma listing_join sessions :
  sessions <> [] -> tmux_listing sessions = join_nl (map tmux_line sessions) ++ [10%N].
Proof.
  unfold tmux_listing. induction sessions as [|e es IH]; intros Hne; [contradiction|].
  change (List.concat (map (fun '(n, c, a, w) => tmux_format_line n c a w) (e :: es)))
    with ((let '(n, c, a, w) := e in tmux_format_line n c a w)
          ++ List.concat (map (fun '(n, c, a, w) => tmux_format_line n c a w) es)).
  rewrite format_line_eq.
  destruct es as [|e2 es'].
  - simpl List.concat. rewrite app_nil_r. reflexivity.
  - rewrite IH by discriminate.
    change (map tmux_line (e :: e2 :: es')) with (tmux_line e :: map tmux_line (e2 :: es')).
    change (join_nl (tmux_line e :: map tmux_line (e2 :: es')))
      with (tmux_line e ++ [10%N] ++ join_nl (map tmux_line (e2 :: es'))).
    rewrite <- !app_assoc. reflexivity.
Qed.

Lemma no_nl_of_ok s : Forall (fun ch => is_space ch = false /\ ch <> 124%N) s ->
  Forall (fun ch => ch <> 10%N) s.
Proof. apply Forall_impl. intros ch [H _] E. subst. discriminate. Qed.

Lemma no_bar_of_ok s : Forall (fun ch => is_space ch = false /\ ch <> 124%N) s ->
  Forall (fun ch => ch <> 124%N) s.
Proof. apply Forall_impl. intros ch [_ H]. exact H. Qed.

Lemma tmux_line_facts e :
  tmux_session_ok e = true ->
  Forall (fun ch => ch <> 10%N) (tmux_line e)
  /\ parse_session_line (tmux_line e) = Some (tmux_expected_row e)
  /\ (exists x r, tmux_line e = x :: r /\ is_space x = false)
  /\ (exists t z, tmux_line e = t ++ [z] /\ is_space z = false).
Proof.
  destruct e as [[[n c] a] w]. unfold tmux_session_ok. intros H.
  apply andb_prop in H as [H Hw]. apply andb_prop in H as [H Ha].
  apply andb_prop in H as [H Hc]. apply andb_prop in H as [Hne Hn].
  apply tmux_field_ok_forall in Hn, Hc, Ha, Hw.
  unfold tmux_line. split; [|split; [|split]].
  - repeat (apply Forall_app; split; [apply no_nl_of_ok; assumption|]);
      try (constructor; [discriminate|constructor]).
    + apply Forall_app. split; [constructor; [discriminate|constructor]|].
      apply Forall_app. split; [apply no_nl_of_ok; assumption|].
      apply Forall_app. split; [constructor; [discriminate|constructor]|].
      apply Forall_app. split; [apply no_nl_of_ok; assumption|].
      apply Forall_app. split; [constructor; [discriminate|constructor]|].
      apply no_nl_of_ok; assumption.
  - unfold parse_session_line.
    replace (is_empty (n ++ [124%N] ++ c ++ [124%N] ++ a ++ [124%N] ++ w)) with false
      by (destruct n; reflexivity).
    simpl app.
    rewrite split_on_app by (apply no_bar_of_ok; assumption).
    rewrite split_on_app by (apply no_bar_of_ok; assumption).
    rewrite split_on_app by (apply no_bar_of_ok; assumption).
    rewrite split_on_none by (apply no_bar_of_ok; assumption).
    reflexivity.
  - destruct n as [|x r]; [discriminate|]. exists x, (r ++ [124%N] ++ c ++ [124%N] ++ a ++ [124%N] ++ w).
    split; [reflexivity|]. inversion Hn as [|? ? [Hx _] _]. exact Hx.
  - destruct (list_eq_dec N.eq_dec w []) as [->|Hw'].
    + exists (n ++ [124%N] ++ c ++ [124%N] ++ a), 124%N. split; [|reflexivity].
      repeat rewrite <- app_assoc. reflexivity.
    + destruct (exists_last Hw') as (w0 & z & Ez). rewrite Ez in Hw |- *.
      exists (n ++ [124%N] ++ c ++ [124%N] ++ a ++ [124%N] ++ w0), z.
      split; [repeat rewrite <- app_assoc; reflexivity|].
      apply Forall_app in Hw as [_ Hz]. inversion Hz as [|? ? [Hz' _] _]. exact Hz'.
Qed.

Lemma no_blank_ends_last s :
  no_blank_ends s -> s <> [] -> exists t z, s = t ++ [z] /\ is_space z = false.
Proof. destruct s as [|c s]; [contradiction|]. intros [_ H] _. exact H. Qed.

Lemma split_on_join_nl ls :
  ls <> [] -> Forall (fun l => Forall (fun ch => ch <> 10%N) l) ls ->
  split_on 10%N (join_nl ls) = ls.
Proof.
  induction ls as [|l ls IH]; intros Hne Hf; [contradiction|].
  inversion Hf as [|? ? Hl Hls]; subst.
  destruct ls as [|l2 ls'].
  - simpl. apply split_on_none, Hl.
  - change (join_nl (l :: l2 :: ls')) with (l ++ [10%N] ++ join_nl (l2 :: ls')).
    simpl app at 2. rewrite split_on_app by exact Hl. f_equal. apply IH; [discriminate|exact Hls].
Qed.

(** X: [_list_tmux_sessions] reads back what tmux lists: for sessions
    whose name is nonempty and whose four fields hold no blank character
    and no '|', parsing the [list-sessions] output gives one row per
    session, in order, with the printed fields and the id stripped of an
    [orch-] prefix; a failed [list-sessions] gives no rows. *)
Theorem list_tmux_sessions_round_trip (sessions : list (ustr * ustr * ustr * ustr))
    (Hok : forallb tmux_session_ok sessions = true) :
  _list_tmux_sessions (Some (tmux_listing sessions)) = map tmux_expected_row sessions
  /\ _list_tmux_sessions None = [].
Proof.
  split; [|reflexivity].
  rewrite forallb_forall in Hok.
  destruct sessions as [|e0 es0] eqn:Es; [reflexivity|].
  rewrite <- Es in *. assert (Hne : sessions <> []) by (rewrite Es; discriminate).
  clear e0 es0 Es.
  assert (Hlines : Forall (fun l => Forall (fun ch => ch <> 10%N) l) (map tmux_line sessions)).
  { apply Forall_map, Forall_forall. intros e He. apply (tmux_line_facts e (Hok e He)). }
  assert (Hjoin : no_blank_ends (join_nl (map tmux_line sessions))).
  { clear Hlines. induction sessions as [|e es IH]; [contradiction|].
    destruct (tmux_line_facts e (Hok e (or_introl eq_refl))) as (_ & _ & (x & r & Ex & Hx) & (t & z & Et & Hz)).
    destruct es as [|e2 es'].
    - change (join_nl (map tmux_line [e])) with (tmux_line e).
      rewrite Ex. unfold no_blank_ends. split; [exact Hx|]. rewrite <- Ex, Et. eauto.
    - change (join_nl (map tmux_line (e :: e2 :: es')))
        with (tmux_line e ++ [10%N] ++ join_nl (map tmux_line (e2 :: es'))).
      assert (IH' : no_blank_ends (join_nl (map tmux_line (e2 :: es')))).
      { apply IH; [|discriminate]. intros e' He'. apply Hok. right. exact He'. }
      destruct (tmux_line_facts e2 (Hok e2 (or_intror (or_introl eq_refl))))
        as (_ & _ & (x2 & r2 & Ex2 & _) & _).
      assert (Hne2 : join_nl (map tmux_line (e2 :: es')) <> []).
      { change (join_nl (map tmux_line (e2 :: es'))) with
          (match map tmux_line es' with [] => tmux_line e2
           | _ => tmux_line e2 ++ [10%N] ++ join_nl (map tmux_line es') end).
        destruct (map tmux_line es'); rewrite Ex2; discriminate. }
      destruct (no_blank_ends_last _ IH' Hne2) as (t2 & z2 & Et2 & Hz2).
      rewrite Et2, Ex. unfold no_blank_ends. rewrite <- app_comm_cons.
      split; [exact Hx|]. exists (x :: r ++ [10%N] ++ t2), z2. split; [|exact Hz2].
      simpl. rewrite <- !app_assoc. reflexivity. }
  unfold _list_tmux_sessions. rewrite listing_join by exact Hne.
  assert (Hs : py_strip (join_nl (map tmux_line sessions) ++ [10%N])
               = join_nl (map tmux_line sessions)).
  { rewrite <- (app_nil_l (join_nl _ ++ [10%N])).
    rewrite (py_strip_pad [] (join_nl (map tmux_line sessions)) [10%N])
      by (repeat constructor).
    apply py_strip_id, Hjoin. }
  rewrite Hs, split_on_join_nl.
  - clear Hs Hjoin Hlines Hne. induction sessions as [|e es IH]; [reflexivity|].
    simpl. rewrite (proj1 (proj2 (tmux_line_facts e (Hok e (or_introl eq_refl))))).
    f_equal. apply IH. intros e' He'. apply Hok. right. exact He'.
  - destruct sessions; [contradiction|discriminate].
  - exact Hlines.
Qed.

Lemma list_tmux_sessions_round_trip_witness :
  _list_tmux_sessions
    (Some (tmux_listing [(u "orch-claude-task-1", u "1700000000", u "1700000100", u "1");
                         (u "dev", u "1700000200", u "1700000300", u "2")]))
  = map tmux_expected_row [(u "orch-claude-task-1", u "1700000000", u "1700000100", u "1");
                           (u "dev", u "1700000200", u "1700000300", u "2")]
  /\ _list_tmux_sessions None = [].
Proof. apply list_tmux_sessions_round_trip. vm_compute. reflexivity. Defined.

(** X: [api_block_task] answers 404 and changes nothing when the task is
    not in pending; otherwise it moves the pending file to blocked (an
    earlier blocked copy is replaced), leaves every other file as it was,
    and a later GET finds the task in blocked unless an in-progress copy
    comes first. *)
Theorem block_task_effect (w : world) (task_id : ustr) :
  (files w Pending task_id = None -> api_block_task w task_id = (w, QError 404))
  /\ (forall c, files w Pending task_id = Some c ->
        let w' := fst (api_block_task w task_id) in
        snd (api_block_task w task_id) = QOk Blocked
        /\ files w' Pending task_id = None
        /\ files w' Blocked task_id = Some c
        /\ (forall q id', (q <> Pending /\ q <> Blocked) \/ id' <> task_id ->
              files w' q id' = files w q id')
        /\ api_get_task w' task_id
           = match files w InProgress task_id with
             | Some c' => TaskFound InProgress c' (_parse_task_spec task_id c')
             | None => TaskFound Blocked c (_parse_task_spec task_id c)
             end).
Proof.
  unfold api_block_task. split.
  - intros H. rewrite H. reflexivity.
  - intros c H. rewrite H. cbv zeta. cbn [fst snd].
    assert (Hid : ustr_eqb task_id task_id = true) by (apply ustr_eqb_eq; reflexivity).
    split; [reflexivity|].
    split; [rewrite files_move_file, Hid; reflexivity|].
    split; [rewrite files_move_file, Hid; reflexivity|].
    split.
    + intros q id' Hq. rewrite files_move_file.
      destruct Hq as [[Hp Hb] | Hi].
      * rewrite (proj2 (qstate_eqb_neq _ _) Hp), (proj2 (qstate_eqb_neq _ _) Hb). reflexivity.
      * rewrite (proj2 (ustr_eqb_neq _ _) Hi), !andb_false_r. reflexivity.
    + unfold api_get_task. cbn [find_task STATES].
      rewrite !files_move_file, Hid. cbn [qstate_eqb andb].
      destruct (files w InProgress task_id); reflexivity.
Qed.

(** *** Reading back a quick task *)





















